(** * make_carrington.py: mid-line extraction over an hourly date range

    A shallow embedding of [src/make_carrington.py].  The script builds the
    list of hourly timestamps between two fixed dates and, for each of them,
    runs [sel_mid_line] in a thread pool: derive the input and output paths
    from the timestamp, [torch.load] the magnetogram, keep column 512,
    create the destination directory and [torch.save] the column.

    Layout of the development:
    - the pieces of the Python library the script calls (exceptions,
      [os.path], [datetime], tensors indexing), embedded as functions;
    - the script itself: [sel_mid_line] as a program over the calls it makes
      to the outside world, [data_list], and the thread pool of [main] as a
      step relation;
    - an in-memory file system implementing the outside world;
    - the properties. *)

From Stdlib Require Import ZArith Lia String Ascii.
From stdpp Require Import gmap strings list pretty.

Local Open Scope string_scope.
Local Open Scope Z_scope.

(** ** Exceptions *)

(** The exception classes that the calls of the script can raise.  All of
    them derive from [Exception] except [KeyboardInterrupt] and
    [SystemExit], which derive from [BaseException] only;
    [FileNotFoundError] is the only one the script names. *)
Inductive exc_class : Type :=
| FileNotFoundError
| FileExistsError
| NotADirectoryError
| IsADirectoryError
| PermissionError
| UnpicklingError
| IndexError
| RuntimeError
| OverflowError
| ZeroDivisionError
| ValueError
| KeyboardInterrupt
| SystemExit.

(** An exception instance: its class and [str(e)]. *)
Record exception : Type := Exc { exc_type : exc_class; exc_str : string }.

Definition isinstance_FileNotFoundError (e : exception) : bool :=
  match exc_type e with FileNotFoundError => true | _ => false end.

Definition isinstance_Exception (e : exception) : bool :=
  match exc_type e with KeyboardInterrupt | SystemExit => false | _ => true end.

(** ** Decimal formatting *)

Definition digit (n : Z) : ascii := ascii_of_nat (48 + Z.to_nat (n mod 10)).

(** [%02d], [%04d] and [%06d] on the values the calendar fields take
    (non-negative and below 10^width). *)
Definition pad2 (n : Z) : string :=
  String (digit (n / 10)) (String (digit n) "").
Definition pad4 (n : Z) : string :=
  String (digit (n / 1000)) (String (digit (n / 100)) (pad2 n)).
Definition pad6 (n : Z) : string :=
  String (digit (n / 100000)) (String (digit (n / 10000)) (pad4 n)).

(** ** datetime *)

Record datetime : Type := Datetime {
  year : Z; month : Z; day : Z;
  hour : Z; minute : Z; second : Z; microsecond : Z
}.

(** One [strftime] directive.  [%Y] is the year with century, the other
    five are zero-padded to two digits.  (What [%Y] gives for a year below
    1000 depends on the platform; four digits are taken here.  The years of
    the script have four digits.) *)
Definition directive (c : ascii) (dt : datetime) : string :=
  if Ascii.eqb c "Y" then pad4 (year dt)
  else if Ascii.eqb c "m" then pad2 (month dt)
  else if Ascii.eqb c "d" then pad2 (day dt)
  else if Ascii.eqb c "H" then pad2 (hour dt)
  else if Ascii.eqb c "M" then pad2 (minute dt)
  else if Ascii.eqb c "S" then pad2 (second dt)
  else if Ascii.eqb c "%" then "%"
  else String "%" (String c "").

(** [dt.strftime(fmt)]: directives are replaced, everything else is
    copied. *)
Fixpoint strftime (fmt : string) (dt : datetime) : string :=
  match fmt with
  | "" => ""
  | String "%" (String c rest) => directive c dt +:+ strftime rest dt
  | String c rest => String c (strftime rest dt)
  end.

(** [str(dt)], as the f-strings of the log lines call it:
    [isoformat(sep=' ')]. *)
Definition datetime_str (dt : datetime) : string :=
  pad4 (year dt) +:+ "-" +:+ pad2 (month dt) +:+ "-" +:+ pad2 (day dt)
  +:+ " " +:+ pad2 (hour dt) +:+ ":" +:+ pad2 (minute dt) +:+ ":" +:+ pad2 (second dt)
  +:+ (if Z.eqb (microsecond dt) 0 then "" else "." +:+ pad6 (microsecond dt)).

(** *** Calendar arithmetic

    [datetime] computes with proleptic Gregorian ordinals: day 1 is
    0001-01-01. *)

Definition MAXORDINAL : Z := 3652059.

Definition is_leap (y : Z) : bool :=
  (y mod 4 =? 0)%Z && (negb (y mod 100 =? 0)%Z || (y mod 400 =? 0)%Z).

Definition days_before_year (y : Z) : Z :=
  let y := y - 1 in y * 365 + y / 4 - y / 100 + y / 400.

Definition DAYS_IN_MONTH (m : Z) : Z :=
  match m with
  | 1 => 31 | 2 => 28 | 3 => 31 | 4 => 30 | 5 => 31 | 6 => 30
  | 7 => 31 | 8 => 31 | 9 => 30 | 10 => 31 | 11 => 30 | 12 => 31
  | _ => -1
  end.

Definition DAYS_BEFORE_MONTH (m : Z) : Z :=
  match m with
  | 1 => 0 | 2 => 31 | 3 => 59 | 4 => 90 | 5 => 120 | 6 => 151
  | 7 => 181 | 8 => 212 | 9 => 243 | 10 => 273 | 11 => 304 | 12 => 334
  | _ => -1
  end.

Definition days_in_month (y m : Z) : Z :=
  if (m =? 2)%Z && is_leap y then 29 else DAYS_IN_MONTH m.

Definition days_before_month (y m : Z) : Z :=
  DAYS_BEFORE_MONTH m + (if (2 <? m)%Z && is_leap y then 1 else 0).

Definition ymd2ord (y m d : Z) : Z :=
  days_before_year y + days_before_month y m + d.

Definition DI400Y : Z := 146097.
Definition DI100Y : Z := 36524.
Definition DI4Y : Z := 1461.

Definition ord2ymd (n : Z) : Z * Z * Z :=
  let n := n - 1 in
  let n400 := n / DI400Y in
  let n := n mod DI400Y in
  let y := n400 * 400 + 1 in
  let n100 := n / DI100Y in
  let n := n mod DI100Y in
  let n4 := n / DI4Y in
  let n := n mod DI4Y in
  let n1 := n / 365 in
  let n := n mod 365 in
  let y := y + n100 * 100 + n4 * 4 + n1 in
  if (n1 =? 4)%Z || (n100 =? 4)%Z then (y - 1, 12, 31)
  else
    let leapyear := (n1 =? 3)%Z && (negb (n4 =? 24)%Z || (n100 =? 3)%Z) in
    let m := Z.shiftr (n + 50) 5 in
    let preceding := DAYS_BEFORE_MONTH m + (if (2 <? m)%Z && leapyear then 1 else 0) in
    if (n <? preceding)%Z then
      let m := m - 1 in
      let preceding :=
        preceding - (DAYS_IN_MONTH m + (if (m =? 2)%Z && leapyear then 1 else 0)) in
      (y, m, n - preceding + 1)
    else (y, m, n - preceding + 1).

Definition toordinal (dt : datetime) : Z := ymd2ord (year dt) (month dt) (day dt).

(** A [timedelta], always normalised: seconds within a day, microseconds
    within a second. *)
Record timedelta : Type := Timedelta { days : Z; seconds : Z; microseconds : Z }.

Definition result (A : Type) : Type := exception + A.

#[export] Instance result_ret : MRet result := fun A a => inr a.
#[export] Instance result_bind : MBind result :=
  fun A B f r => match r with inl e => inl e | inr a => f a end.

(** [timedelta(days, seconds, microseconds)] on integers. *)
Definition timedelta_new (d s us : Z) : result timedelta :=
  let s := s + us / 1000000 in
  let us := us mod 1000000 in
  let d := d + s / 86400 in
  let s := s mod 86400 in
  if (Z.abs d <=? 999999999)%Z then inr (Timedelta d s us)
  else inl (Exc OverflowError
              ("days=" +:+ pretty d +:+ "; must have magnitude <= 999999999")).

Definition to_microseconds (td : timedelta) : Z :=
  (days td * 86400 + seconds td) * 1000000 + microseconds td.

(** [dt1 - dt2] *)
Definition datetime_sub (dt1 dt2 : datetime) : result timedelta :=
  let secs1 := second dt1 + minute dt1 * 60 + hour dt1 * 3600 in
  let secs2 := second dt2 + minute dt2 * 60 + hour dt2 * 3600 in
  timedelta_new (toordinal dt1 - toordinal dt2) (secs1 - secs2)
                (microsecond dt1 - microsecond dt2).

(** [i * td] *)
Definition timedelta_mul (i : Z) (td : timedelta) : result timedelta :=
  timedelta_new (days td * i) (seconds td * i) (microseconds td * i).

(** [dt + td] *)
Definition datetime_add (dt : datetime) (td : timedelta) : result datetime :=
  delta ← timedelta_new (toordinal dt) (hour dt * 3600 + minute dt * 60 + second dt)
                        (microsecond dt);
  delta ← timedelta_new (days delta + days td) (seconds delta + seconds td)
                        (microseconds delta + microseconds td);
  let hour := seconds delta / 3600 in
  let rem := seconds delta mod 3600 in
  let minute := rem / 60 in
  let second := rem mod 60 in
  if (0 <? days delta)%Z && (days delta <=? MAXORDINAL)%Z then
    let '(y, m, d) := ord2ymd (days delta) in
    inr (Datetime y m d hour minute second (microseconds delta))
  else inl (Exc OverflowError "date value out of range").

(** [dt1 < dt2] and [dt1 <= dt2]: the fields are compared in order. *)
Definition datetime_fields (dt : datetime) : list Z :=
  [year dt; month dt; day dt; hour dt; minute dt; second dt; microsecond dt].

Fixpoint cmp_fields (l1 l2 : list Z) : comparison :=
  match l1, l2 with
  | [], [] => Eq
  | [], _ :: _ => Lt
  | _ :: _, [] => Gt
  | x :: l1', y :: l2' =>
      match (x ?= y)%Z with Eq => cmp_fields l1' l2' | c => c end
  end.

Definition datetime_cmp (dt1 dt2 : datetime) : comparison :=
  cmp_fields (datetime_fields dt1) (datetime_fields dt2).
Definition datetime_lt (dt1 dt2 : datetime) : bool :=
  match datetime_cmp dt1 dt2 with Lt => true | _ => false end.
Definition datetime_le (dt1 dt2 : datetime) : bool :=
  match datetime_cmp dt1 dt2 with Gt => false | _ => true end.

(** *** True division of integers, then [int()]

    [a / b] on Python integers is the quotient rounded to the nearest
    double, ties to even; [int] then drops the fraction.  A double is kept
    here as mantissa and exponent.  The quotients of [timedelta]s lie far
    inside the range of normal doubles, so neither overflow nor gradual
    underflow is modelled. *)
Definition round_half_even (num den : Z) : Z :=
  let q := num / den in
  let r := num mod den in
  if (2 * r <? den)%Z then q
  else if (den <? 2 * r)%Z then q + 1
  else if Z.even q then q else q + 1.

Definition pow2 (x : Z) : Z := 2 ^ Z.max 0 x.

(** The mantissa [m] and exponent [e] of the double nearest to [a / b],
    for positive [a] and [b]: [m * 2^e] with [2^52 <= m <= 2^53]. *)
Definition truediv_pos (a b : Z) : Z * Z :=
  let k := Z.log2 a - Z.log2 b in
  let e := if (b * pow2 k <=? a * pow2 (- k))%Z then k - 52 else k - 53 in
  (round_half_even (a * pow2 (- e)) (b * pow2 e), e).

Definition int_of_double (me : Z * Z) : Z :=
  let '(m, e) := me in (m * pow2 e) / pow2 (- e).

(** [int(a / b)] *)
Definition int_truediv (a b : Z) : result Z :=
  if (b =? 0)%Z then inl (Exc ZeroDivisionError "division by zero")
  else if (a =? 0)%Z then inr 0
  else inr (Z.sgn a * Z.sgn b * int_of_double (truediv_pos (Z.abs a) (Z.abs b))).

(** [int(td1 / td2)] *)
Definition timedelta_truediv_int (td1 td2 : timedelta) : result Z :=
  int_truediv (to_microseconds td1) (to_microseconds td2).

(** ** os.path (posixpath) *)

Definition startswith_sep (s : string) : bool :=
  match s with String c _ => Ascii.eqb c "/" | "" => false end.

Fixpoint endswith_sep (s : string) : bool :=
  match s with
  | "" => false
  | String c "" => Ascii.eqb c "/"
  | String _ rest => endswith_sep rest
  end.

(** [os.path.join(a, b)]: an absolute [b] discards [a]. *)
Definition os_path_join (a b : string) : string :=
  if startswith_sep b then b
  else if orb (String.eqb a "") (endswith_sep a) then a +:+ b
  else a +:+ "/" +:+ b.

Fixpoint drop_until_sep (l : list ascii) : list ascii :=
  match l with
  | [] => []
  | c :: l' => if Ascii.eqb c "/" then l else drop_until_sep l'
  end.

Fixpoint lstrip_sep (l : list ascii) : list ascii :=
  match l with
  | [] => []
  | c :: l' => if Ascii.eqb c "/" then lstrip_sep l' else l
  end.

(** [os.path.dirname(p)]: everything up to the last slash, with the
    trailing slashes removed unless nothing else is left.  The work is done
    on the reversed path. *)
Definition os_path_dirname (p : string) : string :=
  let head := drop_until_sep (rev (list_ascii_of_string p)) in
  match lstrip_sep head with
  | [] => string_of_list_ascii (rev head)
  | stripped => string_of_list_ascii (rev stripped)
  end.

(** ** Tensors *)

(** The elements are only ever copied, never computed with: an element is
    kept as the integer of its bit pattern. *)
Definition scalar : Type := Z.

(** A contiguous row-major tensor. *)
Record tensor : Type := Tensor { shape : list nat; data : list scalar }.

Definition numel (sh : list nat) : nat := foldr Nat.mul 1%nat sh.

Definition tensor_wf (t : tensor) : Prop := length (data t) = numel (shape t).

(** [t[:, idx]] for a non-negative [idx]: the tensor needs two dimensions
    at least and [idx] has to lie within the second one; the result drops
    that dimension. *)
Definition getitem_colon_int (t : tensor) (idx : nat) : exception + tensor :=
  match shape t with
  | d0 :: d1 :: rest =>
      if Nat.ltb idx d1 then
        let r := numel rest in
        inr {| shape := d0 :: rest;
               data := flat_map (fun i => take r (drop ((i * d1 + idx) * r) (data t)))
                                (seq 0 d0) |}
      else
        inl (Exc IndexError
               ("index " +:+ pretty idx +:+ " is out of bounds for dimension 1 with size "
                +:+ pretty d1))
  | sh =>
      inl (Exc IndexError
             ("too many indices for tensor of dimension " +:+ pretty (length sh)))
  end.

(** ** Programs over the outside world *)

(** The calls [sel_mid_line] makes to the outside world.  What [torch.load]
    gives back is taken to be a tensor: a file that holds anything else
    counts as one that cannot be loaded. *)
Inductive call : Type :=
| TorchLoad (path : string)
| OsMakedirs (path : string)                (* exist_ok=True *)
| TorchSave (obj : tensor) (path : string)
| Print (line : string).

Definition resp (c : call) : Type :=
  match c with TorchLoad _ => tensor | _ => unit end.

(** A program: it returns, raises, or makes a call and goes on with what the
    call returned or raised. *)
Inductive prog (A : Type) : Type :=
| Return (a : A)
| Raise (e : exception)
| Call (c : call) (k : exception + resp c -> prog A).

Arguments Return {A} a.
Arguments Raise {A} e.
Arguments Call {A} c k.

Fixpoint bind {A B : Type} (f : A -> prog B) (p : prog A) : prog B :=
  match p with
  | Return a => f a
  | Raise e => Raise e
  | Call c k => Call c (fun r => bind f (k r))
  end.

#[export] Instance prog_ret : MRet prog := fun A a => Return a.
#[export] Instance prog_bind : MBind prog := fun A B f p => bind f p.

(** A call whose exception propagates. *)
Definition perform (c : call) : prog (resp c) :=
  Call c (fun r => match r with inl e => Raise e | inr x => Return x end).

(** A pure operation that can raise. *)
Definition lift {A : Type} (r : exception + A) : prog A :=
  match r with inl e => Raise e | inr a => Return a end.

(** [try: body except: handler], the handler deciding by the class of the
    exception (and raising it again when no clause matches). *)
Fixpoint try_except {A : Type} (body : prog A) (handler : exception -> prog A) : prog A :=
  match body with
  | Return a => Return a
  | Raise e => handler e
  | Call c k => Call c (fun r => try_except (k r) handler)
  end.

(** ** The script *)

Definition name_format : string := "/%Y/%m/%d/hmi.M_720s.%Y%m%d_%H%M%S".

(** Lines 40-42. *)
Definition relevant_path (date_time : datetime) : string :=
  strftime name_format date_time +:+ "_TAI.pt".
Definition data_path (input_dir : string) (date_time : datetime) : string :=
  os_path_join input_dir (relevant_path date_time).
Definition output_path (output_dir : string) (date_time : datetime) : string :=
  os_path_join output_dir (strftime name_format date_time +:+ "_midline.pt").

(** The three log lines of [sel_mid_line]. *)
Definition success_line (date_time : datetime) : string :=
  "Processed " +:+ datetime_str date_time +:+ " successfully.".
Definition skip_line (date_time : datetime) : string :=
  "No data found locally for " +:+ datetime_str date_time +:+ ", skipping...".
Definition failure_line (date_time : datetime) (e : exception) : string :=
  "Error processing " +:+ datetime_str date_time +:+ ": " +:+ exc_str e.

Definition sel_mid_line (input_dir output_dir : string) (date_time : datetime)
  : prog (option string) :=
  try_except
    (data ← perform (TorchLoad (data_path input_dir date_time));
     mid_line_data ← lift (getitem_colon_int data 512);
     perform (OsMakedirs (os_path_dirname (output_path output_dir date_time)));;
     perform (TorchSave mid_line_data (output_path output_dir date_time));;
     perform (Print (success_line date_time));;
     Return (Some (output_path output_dir date_time)))
    (fun e =>
       if isinstance_FileNotFoundError e then
         perform (Print (skip_line date_time));; Return None
       else if isinstance_Exception e then
         perform (Print (failure_line date_time e));; Return None
       else Raise e).

(** Lines 88-93: what the loop of [main] does with a finished future.
    [future.result()] gives back what the task returned or raises what it
    raised. *)
Definition truthy (result : option string) : bool :=
  match result with
  | None => false
  | Some path => negb (String.eqb path "")
  end.

Definition saved_line (result : option string) : string :=
  "Output saved to " +:+ default "None" result.
Definition failed_line (date : datetime) (e : exception) : string :=
  "Failed to process " +:+ datetime_str date +:+ ": " +:+ exc_str e.

Definition collect (date : datetime) (future_result : exception + option string)
  : prog unit :=
  try_except
    (result ← lift future_result;
     if truthy result then perform (Print (saved_line result)) else Return tt)
    (fun e =>
       if isinstance_Exception e then perform (Print (failed_line date e))
       else Raise e).

(** Lines 73-78: the timestamps.  [enumerate] is the list comprehension with
    its three locals as parameters. *)
Definition range (n : Z) : list Z := seqZ 0 n.

Definition enumerate (start stop : datetime) (step : timedelta) : result (list datetime) :=
  span ← datetime_sub stop start;
  n ← timedelta_truediv_int span step;
  mapM (fun i => td ← timedelta_mul i step; datetime_add start td) (range n).

Definition start_date : datetime := Datetime 2010 5 1 0 0 0 0.
Definition end_date : datetime := Datetime 2024 5 1 0 0 0 0.

(** [timedelta(hours=h)] *)
Definition timedelta_hours (h : Z) : result timedelta := timedelta_new 0 (h * 3600) 0.

Definition data_list : result (list datetime) :=
  delta ← timedelta_hours 1;
  enumerate start_date end_date delta.

(** Lines 15-23: the three command-line options and their defaults. *)
Record args : Type := Args { input_dir : string; output_dir : string; num_cpus : Z }.

Definition default_args : args :=
  Args "/mnt/nas/home/huxing/202407/nas/data/hmi/magnet_pt"
       "/mnt/nas-tq/tianwen/home/gaozhe/SDO_data/hmi_1h_line/magnet_pt/"
       64.

(** ** The outside world *)

(** The file system behind [torch.load], [os.makedirs] and [torch.save].
    Loading reads only; the other two give back the file system they leave,
    also when they raise. *)
Class Env : Type := {
  World : Type;
  torch_load : World -> string -> exception + tensor;
  os_makedirs : World -> string -> World * (exception + unit);
  torch_save : World -> tensor -> string -> World * (exception + unit)
}.

Section Semantics.
Context `{Env}.

(** The file system and the lines printed so far. *)
Record state : Type := State { fs : World; stdout : list string }.

Definition exec_call (c : call) (s : state) : state * (exception + resp c) :=
  match c as c0 return state * (exception + resp c0) with
  | TorchLoad path => (s, torch_load (fs s) path)
  | OsMakedirs path =>
      let '(w, r) := os_makedirs (fs s) path in (State w (stdout s), r)
  | TorchSave obj path =>
      let '(w, r) := torch_save (fs s) obj path in (State w (stdout s), r)
  | Print line => (State (fs s) (stdout s ++ [line]), inr tt)
  end.

(** Running a program to its end in one thread. *)
Fixpoint run {A : Type} (p : prog A) (s : state) : state * (exception + A) :=
  match p with
  | Return a => (s, inr a)
  | Raise e => (s, inl e)
  | Call c k => let '(s', r) := exec_call c s in run (k r) s'
  end.

(** The calls it makes on the way, in order. *)
Fixpoint calls {A : Type} (p : prog A) (s : state) : list call :=
  match p with
  | Return _ | Raise _ => []
  | Call c k => let '(s', r) := exec_call c s in c :: calls (k r) s'
  end.

(** *** The thread pool of [main] *)

Inductive status : Type :=
| Queued
| Running (p : prog (option string))
| Done (r : exception + option string).

(** A future: the date it is keyed by in [futures], where its task stands,
    and whether [as_completed] has yielded it already. *)
Record future : Type := Future {
  f_date : datetime; f_status : status; f_yielded : bool
}.

(** [p_main] is the exception that left the loop of [main], if any. *)
Record pool : Type := Pool {
  p_state : state; p_futures : list future; p_main : option exception
}.

Definition is_running (f : future) : bool :=
  match f_status f with Running _ => true | _ => false end.

Definition running (futs : list future) : nat := length (filter is_running futs).

Definition submit_all (w : World) (dates : list datetime) : pool :=
  Pool (State w []) ((fun d => Future d Queued false) <$> dates) None.

(** Lines 67-84 of [main]: the timestamps are computed, the executor is
    built (which refuses a pool without workers) and every task is
    submitted. *)
Definition main_submit (a : args) (w : World) : result pool :=
  dates ← data_list;
  if num_cpus a <=? 0
  then inl (Exc ValueError "max_workers must be greater than 0")
  else inr (submit_all w dates).

(** One step of the pool: a worker takes a queued task (at most
    [num_cpus] of them run at once), a running task makes its next call,
    returns or raises, or the loop of [main] handles a finished future. *)
Inductive pool_step (num_cpus : Z) (input_dir output_dir : string)
  : pool -> pool -> Prop :=
| step_start s futs m i d y :
    futs !! i = Some (Future d Queued y) ->
    Z.of_nat (running futs) < num_cpus ->
    pool_step num_cpus input_dir output_dir
      (Pool s futs m)
      (Pool s (<[i := Future d (Running (sel_mid_line input_dir output_dir d)) y]> futs) m)
| step_call s futs m i d y c k s' r :
    futs !! i = Some (Future d (Running (Call c k)) y) ->
    exec_call c s = (s', r) ->
    pool_step num_cpus input_dir output_dir
      (Pool s futs m)
      (Pool s' (<[i := Future d (Running (k r)) y]> futs) m)
| step_return s futs m i d y a :
    futs !! i = Some (Future d (Running (Return a)) y) ->
    pool_step num_cpus input_dir output_dir
      (Pool s futs m)
      (Pool s (<[i := Future d (Done (inr a)) y]> futs) m)
| step_raise s futs m i d y e :
    futs !! i = Some (Future d (Running (Raise e)) y) ->
    pool_step num_cpus input_dir output_dir
      (Pool s futs m)
      (Pool s (<[i := Future d (Done (inl e)) y]> futs) m)
| step_collect s futs i d r s' res :
    futs !! i = Some (Future d (Done r) false) ->
    run (collect d r) s = (s', res) ->
    pool_step num_cpus input_dir output_dir
      (Pool s futs None)
      (Pool s' (<[i := Future d (Done r) true]> futs)
            (match res with inl e => Some e | inr _ => None end)).


Definition is_done (f : future) : bool :=
  match f_status f with Done _ => true | _ => false end.

(** The [with] block is left: every task is over, and the loop has seen
    every future or was left by an exception. *)
Definition finished (P : pool) : Prop :=
  Forall (fun f => is_done f = true) (p_futures P) /\
  (p_main P = None -> Forall (fun f => f_yielded f = true) (p_futures P)).

End Semantics.

(** ** An in-memory file system *)

Inductive content : Type := Pickle (t : tensor) | Garbage.
Inductive node : Type := Dir | File (c : content).

Definition errno_str (msg path : string) : string :=
  msg +:+ ": '" +:+ path +:+ "'".

Definition mem_load (w : gmap string node) (path : string) : exception + tensor :=
  match w !! path with
  | None => inl (Exc FileNotFoundError (errno_str "[Errno 2] No such file or directory" path))
  | Some Dir => inl (Exc IsADirectoryError (errno_str "[Errno 21] Is a directory" path))
  | Some (File Garbage) => inl (Exc UnpicklingError "invalid load key")
  | Some (File (Pickle t)) => inr t
  end.

(** The directories [os.makedirs] goes through, outermost first: the path
    and its ancestors below the root. *)
Fixpoint ancestors (fuel : nat) (path : string) : list string :=
  match fuel with
  | O => []
  | S fuel' =>
      if String.eqb path (os_path_dirname path) then []
      else ancestors fuel' (os_path_dirname path) ++ [path]
  end.

Fixpoint mem_mkdirs (w : gmap string node) (dirs : list string)
  : gmap string node * (exception + unit) :=
  match dirs with
  | [] => (w, inr tt)
  | d :: dirs' =>
      match w !! d with
      | Some (File _) =>
          (w, inl (match dirs' with
                   | [] => Exc FileExistsError (errno_str "[Errno 17] File exists" d)
                   | _ => Exc NotADirectoryError (errno_str "[Errno 20] Not a directory" d)
                   end))
      | Some Dir => mem_mkdirs w dirs'
      | None => mem_mkdirs (<[d := Dir]> w) dirs'
      end
  end.

Definition mem_makedirs (w : gmap string node) (path : string)
  : gmap string node * (exception + unit) :=
  mem_mkdirs w (ancestors (String.length path) path).

Definition is_root (path : string) : bool :=
  String.eqb path (os_path_dirname path).

Definition mem_save (w : gmap string node) (obj : tensor) (path : string)
  : gmap string node * (exception + unit) :=
  match w !! path with
  | Some Dir => (w, inl (Exc IsADirectoryError (errno_str "[Errno 21] Is a directory" path)))
  | _ =>
      let parent := os_path_dirname path in
      if is_root parent then (<[path := File (Pickle obj)]> w, inr tt)
      else match w !! parent with
           | Some Dir => (<[path := File (Pickle obj)]> w, inr tt)
           | Some (File _) =>
               (w, inl (Exc NotADirectoryError (errno_str "[Errno 20] Not a directory" path)))
           | None =>
               (w, inl (Exc FileNotFoundError
                          (errno_str "[Errno 2] No such file or directory" path)))
           end
  end.

#[export] Instance mem_env : Env := {|
  World := gmap string node;
  torch_load := mem_load;
  os_makedirs := mem_makedirs;
  torch_save := mem_save
|}.


(** ** Notions the properties are stated with *)

(** Row-major offset of a multi-index, [None] when it is out of range. *)
Fixpoint ravel (sh ix : list nat) : option nat :=
  match sh, ix with
  | [], [] => Some 0%nat
  | d :: sh', i :: ix' =>
      if Nat.ltb i d then o ← ravel sh' ix'; Some (i * numel sh' + o)%nat else None
  | _, _ => None
  end.

(** [t[i0, i1, ...]] *)
Definition tensor_get (t : tensor) (ix : list nat) : option scalar :=
  o ← ravel (shape t) ix; data t !! o.

(** [col] is column [c] of [grid]: the second dimension is gone and
    [col[i, js] = grid[i, c, js]] at every index. *)
Definition is_column (c : nat) (grid col : tensor) : Prop :=
  match shape grid with
  | d0 :: d1 :: rest =>
      shape col = d0 :: rest /\ tensor_wf col /\
      forall i js, tensor_get col (i :: js) = tensor_get grid (i :: c :: js)
  | _ => False
  end.

(** The second dimension of [t], if there is one, stops before index [c]. *)
Definition lacks_column (c : nat) (t : tensor) : Prop :=
  forall d0 d1 rest, shape t = d0 :: d1 :: rest -> (d1 <= c)%nat.

(** The calls that change the file system. *)
Definition is_write (c : call) : bool :=
  match c with OsMakedirs _ | TorchSave _ _ => true | _ => false end.

(** The calls of the outside world raise instances of [Exception] only. *)
Definition raises_only_Exception `{Env} : Prop :=
  (forall w path e, torch_load w path = inl e -> isinstance_Exception e = true) /\
  (forall w path w' e, os_makedirs w path = (w', inl e) -> isinstance_Exception e = true) /\
  (forall w obj path w' e,
      torch_save w obj path = (w', inl e) -> isinstance_Exception e = true).

(** What [torch.save] wrote, [torch.load] reads back. *)
Definition save_then_load `{Env} : Prop :=
  forall w obj path w', torch_save w obj path = (w', inr tt) -> torch_load w' path = inr obj.

(** The four steps inside the [try] of [sel_mid_line] read off as one
    function of the file system: what is left of it, and whether the steps
    went through. *)
Definition attempt `{Env} (w : World) (input_dir output_dir : string) (dt : datetime)
  : World * (exception + unit) :=
  match torch_load w (data_path input_dir dt) with
  | inl e => (w, inl e)
  | inr grid =>
      match getitem_colon_int grid 512 with
      | inl e => (w, inl e)
      | inr col =>
          match os_makedirs w (os_path_dirname (output_path output_dir dt)) with
          | (w1, inl e) => (w1, inl e)
          | (w1, inr _) => torch_save w1 col (output_path output_dir dt)
          end
      end
  end.

(** The calls of these steps. *)
Definition attempt_calls `{Env} (w : World) (input_dir output_dir : string) (dt : datetime)
  : list call :=
  TorchLoad (data_path input_dir dt) ::
  match torch_load w (data_path input_dir dt) with
  | inl _ => []
  | inr grid =>
      match getitem_colon_int grid 512 with
      | inl _ => []
      | inr col =>
          OsMakedirs (os_path_dirname (output_path output_dir dt)) ::
          match os_makedirs w (os_path_dirname (output_path output_dir dt)) with
          | (_, inl _) => []
          | (_, inr _) => [TorchSave col (output_path output_dir dt)]
          end
      end
  end.

(** How [sel_mid_line] ends. *)
Inductive outcome : Type :=
| Success (path : string)
| Skip
| Failure (cause : exception)
| Escaped (e : exception).

Definition outcome_of (output_dir : string) (dt : datetime) (r : exception + unit) : outcome :=
  match r with
  | inr _ => Success (output_path output_dir dt)
  | inl e =>
      if isinstance_FileNotFoundError e then Skip
      else if isinstance_Exception e then Failure e
      else Escaped e
  end.

(** What the two [except] clauses of [sel_mid_line] print for [e]. *)
Definition except_lines (dt : datetime) (e : exception) : list string :=
  if isinstance_FileNotFoundError e then [skip_line dt]
  else if isinstance_Exception e then [failure_line dt e]
  else [].

(** What each outcome prints and gives back to the caller. *)
Definition outcome_line (dt : datetime) (oc : outcome) : list string :=
  match oc with
  | Success _ => [success_line dt]
  | Skip => [skip_line dt]
  | Failure e => [failure_line dt e]
  | Escaped _ => []
  end.

Definition outcome_result (oc : outcome) : exception + option string :=
  match oc with
  | Success path => inr (Some path)
  | Skip | Failure _ => inr None
  | Escaped e => inl e
  end.

(** *** Notions for the calendar *)

(** The month and day of the [n]-th day (from 0) of a year, as [ord2ymd]
    finds them. *)
Definition doy2md (leapyear : bool) (n : Z) : Z * Z :=
  let m := Z.shiftr (n + 50) 5 in
  let preceding := DAYS_BEFORE_MONTH m + (if (2 <? m)%Z && leapyear then 1 else 0) in
  if (n <? preceding)%Z then
    let m := m - 1 in
    let preceding :=
      preceding - (DAYS_IN_MONTH m + (if (m =? 2)%Z && leapyear then 1 else 0)) in
    (m, n - preceding + 1)
  else (m, n - preceding + 1).

Definition doy2md_ok (leapyear : bool) (n : Z) : bool :=
  let '(m, d) := doy2md leapyear n in
  (1 <=? m)%Z && (m <=? 12)%Z && (1 <=? d)%Z &&
  (d <=? DAYS_IN_MONTH m + (if (m =? 2)%Z && leapyear then 1 else 0))%Z &&
  (DAYS_BEFORE_MONTH m + (if (2 <? m)%Z && leapyear then 1 else 0) + d =? n + 1)%Z.

Definition valid_date (y m d : Z) : Prop :=
  1 <= y <= 9999 /\ 1 <= m <= 12 /\ 1 <= d <= days_in_month y m.

Ltac month_cases m :=
  let H := fresh "Hm" in
  assert (H : m = 1 \/ m = 2 \/ m = 3 \/ m = 4 \/ m = 5 \/ m = 6 \/
              m = 7 \/ m = 8 \/ m = 9 \/ m = 10 \/ m = 11 \/ m = 12) by lia;
  repeat (destruct H as [H|H]; [subst m|]); [..|subst m].

Definition valid_datetime (dt : datetime) : Prop :=
  valid_date (year dt) (month dt) (day dt) /\
  0 <= hour dt < 24 /\ 0 <= minute dt < 60 /\ 0 <= second dt < 60 /\
  0 <= microsecond dt < 1000000.

Definition valid_timedelta (td : timedelta) : Prop :=
  Z.abs (days td) <= 999999999 /\
  0 <= seconds td < 86400 /\ 0 <= microseconds td < 1000000.

(** Microseconds since midnight before 0001-01-01. *)
Definition timestamp (dt : datetime) : Z :=
  ((toordinal dt * 24 + hour dt) * 60 + minute dt) * 60000000
  + second dt * 1000000 + microsecond dt.

(** The microseconds of one day. *)
Definition DAY : Z := 86400000000.

(** *** Notions for the pool *)

Section PoolNotions.
Context `{Env}.

Definition is_outcome_line (d : datetime) (line : string) : Prop :=
  line = success_line d \/ line = skip_line d \/ exists e, line = failure_line d e.









End PoolNotions.

(** *** Notions for the paths *)

(** The directory of the day: [/YYYY/MM/DD], its two ancestors, and the
    name of the output file in it. *)
Definition year_dir (dt : datetime) : string := "/" +:+ pad4 (year dt).
Definition month_dir (dt : datetime) : string := year_dir dt +:+ "/" +:+ pad2 (month dt).
Definition day_dir (dt : datetime) : string := month_dir dt +:+ "/" +:+ pad2 (day dt).
Definition stamp (dt : datetime) : string :=
  "hmi.M_720s." +:+ pad4 (year dt) +:+ pad2 (month dt) +:+ pad2 (day dt)
  +:+ "_" +:+ pad2 (hour dt) +:+ pad2 (minute dt) +:+ pad2 (second dt).

(** No slash in [s]. *)
Definition no_sep (s : string) : Prop :=
  Forall (fun c => Ascii.eqb c "/" = false) (list_ascii_of_string s).

(** *** Notions for the log of the pool *)

Section LogNotions.
Context `{Env}.







(** The tasks run one after the other, each followed by its turn of the
    loop of [main]: the state this leaves and the futures as they end. *)
Fixpoint run_in_order (input_dir output_dir : string) (dates : list datetime)
    (s : state) : state * list future :=
  match dates with
  | [] => (s, [])
  | d :: ds =>
      let '(s1, r) := run (sel_mid_line input_dir output_dir d) s in
      let '(s2, _) := run (collect d r) s1 in
      let '(s3, futs) := run_in_order input_dir output_dir ds s2 in
      (s3, Future d (Done r) true :: futs)
  end.


End LogNotions.

Section QuietNotions.
Context `{Env}.

(** Whatever it is answered, [p] prints nothing but outcome lines of [d],
    and an exception it lets through is no instance of [Exception]. *)
Fixpoint quiet (d : datetime) (p : prog (option string)) : Prop :=
  match p with
  | Return _ => True
  | Raise e => isinstance_Exception e = false
  | Call c k =>
      (forall line, c = Print line -> is_outcome_line d line) /\
      forall s s' r, exec_call c s = (s', r) -> quiet d (k r)
  end.

Definition future_quiet (f : future) : Prop :=
  match f_status f with
  | Queued => True
  | Running p => quiet (f_date f) p
  | Done (inl e) => isinstance_Exception e = false
  | Done (inr _) => True
  end.

(** Every line of the log is an outcome line or announces a result. *)
Definition plain_log (out : list string) : Prop :=
  Forall (fun line => (exists d, is_outcome_line d line) \/
                      exists a, line = saved_line a) out.

End QuietNotions.

(** *** Notions for a batch on the in-memory file system *)

(** A path at which a task makes a directory. *)
Definition dir_path (p : string) : Prop :=
  exists d, p = year_dir d \/ p = month_dir d \/ p = day_dir d.

(** The three progress marks of a task that matter to the others: nothing
    yet, the directory of the day made, the column saved. *)
Inductive stage : Type := Fresh | Made | Saved.

Section BatchNotions.
Variables (input_dir output_dir : string) (dates : list datetime).
Variable w0 : gmap string node.

(** [col] is what the task of [d] slices out of its input as the batch
    found it. *)
Definition column_of (d : datetime) (col : tensor) : Prop :=
  exists grid, mem_load w0 (data_path input_dir d) = inr grid /\
               getitem_colon_int grid 512 = inr col.

(** From [w] to [w'] tasks of the batch have been at work: directories of
    days that were missing have been made, and columns have been saved at
    output paths that were no directories. *)
Definition advanced (w w' : gmap string node) : Prop :=
  forall p,
    w' !! p = w !! p \/
    (w !! p = None /\ w' !! p = Some Dir /\ dir_path p) \/
    (w !! p <> Some Dir /\
     exists d col, d ∈ dates /\ p = output_path output_dir d /\ column_of d col /\
                   w' !! p = Some (File (Pickle col))).

Definition evolved (w : gmap string node) : Prop := advanced w0 w.

(** What the task of [d] can rely on at each stage, whatever the others
    do. *)
Definition knows (d : datetime) (st : stage) (w : gmap string node) : Prop :=
  match st with
  | Fresh => True
  | Made => w !! day_dir d = Some Dir
  | Saved =>
      exists d' col, d' ∈ dates /\
        output_path output_dir d' = output_path output_dir d /\ column_of d' col /\
        w !! output_path output_dir d = Some (File (Pickle col))
  end.

(** What is left of the task of [d] returns [res], and a path only once the
    column is saved, whatever the other tasks do to the file system in
    between. *)
Fixpoint settled (d : datetime) (st : stage) (res : exception + option string)
    (p : prog (option string)) : Prop :=
  match p with
  | Return r => inr r = res /\ (r <> None -> st = Saved)
  | Raise _ => False
  | Call c k =>
      forall s : @state mem_env,
        evolved (fs s) -> knows d st (fs s) ->
        advanced (fs s) (fs (fst (exec_call c s))) /\
        exists st',
          knows d st' (fs (fst (exec_call c s))) /\
          settled d st' res (k (snd (exec_call c s)))
  end.

(** The result of the task of [d] run alone on [w0]. *)
Definition alone (d : datetime) : exception + option string :=
  snd (run (sel_mid_line input_dir output_dir d) (@State mem_env w0 [])).

Definition future_settled (w : gmap string node) (f : future) : Prop :=
  match f_status f with
  | Queued => True
  | Running p =>
      exists st, knows (f_date f) st w /\ settled (f_date f) st (alone (f_date f)) p
  | Done r =>
      r = alone (f_date f) /\
      forall path, r = inr (Some path) -> knows (f_date f) Saved w
  end.

Definition pool_settled (P : @pool mem_env) : Prop :=
  evolved (fs (p_state P)) /\
  f_date <$> p_futures P = dates /\
  Forall (future_settled (fs (p_state P))) (p_futures P).

(** Whether the attempt of a task goes through, told from the file system
    the batch starts on. *)
Definition goes_through (d : datetime) : Prop :=
  exists col,
    column_of d col /\
    snd (mem_mkdirs w0 [year_dir d; month_dir d; day_dir d]) = inr tt /\
    w0 !! output_path output_dir d <> Some Dir.

End BatchNotions.

(** Worlds and timestamps the properties are instantiated at. *)
Definition t0 : datetime := Datetime 2012 3 4 5 0 0 0.
Definition grid0 : tensor := Tensor [2%nat; 513%nat] (map Z.of_nat (seq 0 1026)).
Definition narrow0 : tensor := Tensor [2%nat; 3%nat] [1; 2; 3; 4; 5; 6].
Definition w_valid : gmap string node := {[ data_path "/data" t0 := File (Pickle grid0) ]}.
Definition w_missing : gmap string node := ∅.
Definition w_corrupt : gmap string node := {[ data_path "/data" t0 := File Garbage ]}.
Definition w_narrow : gmap string node := {[ data_path "/data" t0 := File (Pickle narrow0) ]}.

(** A state of the in-memory world. *)
Definition mem_state (w : gmap string node) (out : list string) : @state mem_env :=
  @State mem_env w out.

Definition t1 : datetime := Datetime 2012 3 4 6 0 0 0.


(** The state one successful run leaves. *)
Definition once : @state mem_env :=
  fst (run (sel_mid_line "/data" "/out" t0) (mem_state w_valid [])).


Definition e_missing : exception :=
  Exc FileNotFoundError
      (errno_str "[Errno 2] No such file or directory" (data_path "/data" t0)).
Definition e_corrupt : exception := Exc UnpicklingError "invalid load key".





(** The pool of two tasks after they ran one after the other: the first
    finds its input, the second does not. *)
Definition pool_in_order : @pool mem_env :=
  Pool (fst (run_in_order "/data" "/out" [t0; t1] (mem_state w_valid [])))
       (snd (run_in_order "/data" "/out" [t0; t1] (mem_state w_valid [])))
       None.

Definition f_first : future :=
  Future t0 (Done (inr (Some (output_path "/out" t0)))) true.

(** The batch of [main] with one worker, on a file system that holds the
    first input, after the first task is over. *)
Definition result_default {A : Type} (d : A) (r : result A) : A :=
  match r with inr a => a | inl _ => d end.
Definition later_dates : list datetime := tail (result_default [] data_list).
Definition w_first : gmap string node :=
  {[ data_path "/data" start_date := File (Pickle grid0) ]}.
Definition args_one : args := Args "/data" "/out" 1.
Definition s_first : @state mem_env :=
  fst (run (sel_mid_line "/data" "/out" start_date) (mem_state w_first [])).
Definition f_done : future :=
  Future start_date (Done (inr (Some (output_path "/out" start_date)))) false.
Definition pool_first : @pool mem_env :=
  Pool s_first (f_done :: ((fun d => Future d Queued false) <$> later_dates)) None.

Arguments data_path : simpl never.
Arguments output_path : simpl never.
Arguments success_line : simpl never.
Arguments skip_line : simpl never.
Arguments failure_line : simpl never.
Arguments os_path_dirname : simpl never.
Arguments getitem_colon_int : simpl never.

(** * Properties *)

(** ** Calendar *)

Lemma is_leap_true y :
  is_leap y = true <-> y mod 4 = 0 /\ (y mod 100 <> 0 \/ y mod 400 = 0).
Proof.
  unfold is_leap.
  destruct (Z.eqb_spec (y mod 4) 0), (Z.eqb_spec (y mod 100) 0), (Z.eqb_spec (y mod 400) 0);
    cbn; intuition (try discriminate; try lia).
Qed.

Lemma days_before_year_succ y :
  days_before_year (y + 1) = days_before_year y + 365 + (if is_leap y then 1 else 0).
Proof.
  unfold days_before_year. cbv zeta. replace (y + 1 - 1) with y by lia.
  destruct (is_leap y) eqn:Hl.
  - apply is_leap_true in Hl. Z.div_mod_to_equations; lia.
  - assert (Hn : ~ (y mod 4 = 0 /\ (y mod 100 <> 0 \/ y mod 400 = 0))).
    { rewrite <- is_leap_true. congruence. }
    Z.div_mod_to_equations; lia.
Qed.

Lemma doy2md_checked :
  forallb (doy2md_ok false) (seqZ 0 365) && forallb (doy2md_ok true) (seqZ 0 366) = true.
Proof. vm_compute. reflexivity. Qed.

Lemma doy2md_spec (leapyear : bool) n :
  0 <= n < 365 + (if leapyear then 1 else 0) -> doy2md_ok leapyear n = true.
Proof.
  intros Hn. pose proof doy2md_checked as Hc.
  apply andb_prop in Hc as [Hf Ht].
  destruct leapyear.
  - eapply forallb_forall in Ht; [exact Ht|].
    apply list_elem_of_In, elem_of_seqZ. lia.
  - eapply forallb_forall in Hf; [exact Hf|].
    apply list_elem_of_In, elem_of_seqZ. lia.
Qed.

Lemma ord2ymd_spec n y m d :
  1 <= n -> ord2ymd n = (y, m, d) ->
  1 <= y /\ 1 <= m <= 12 /\ 1 <= d <= days_in_month y m /\ ymd2ord y m d = n.
Proof.
  intros Hn. unfold ord2ymd. cbv zeta.
  set (n400 := (n - 1) / DI400Y). set (r1 := (n - 1) mod DI400Y).
  set (n100 := r1 / DI100Y). set (r2 := r1 mod DI100Y).
  set (n4 := r2 / DI4Y). set (r3 := r2 mod DI4Y).
  set (n1 := r3 / 365). set (r4 := r3 mod 365).
  assert (H1 : n - 1 = DI400Y * n400 + r1 /\ 0 <= r1 < DI400Y).
  { split; [apply Z.div_mod; discriminate|apply Z.mod_pos_bound; reflexivity]. }
  assert (H2 : r1 = DI100Y * n100 + r2 /\ 0 <= r2 < DI100Y).
  { split; [apply Z.div_mod; discriminate|apply Z.mod_pos_bound; reflexivity]. }
  assert (H3 : r2 = DI4Y * n4 + r3 /\ 0 <= r3 < DI4Y).
  { split; [apply Z.div_mod; discriminate|apply Z.mod_pos_bound; reflexivity]. }
  assert (H4 : r3 = 365 * n1 + r4 /\ 0 <= r4 < 365).
  { split; [apply Z.div_mod; discriminate|apply Z.mod_pos_bound; reflexivity]. }
  unfold DI400Y, DI100Y, DI4Y in H1, H2, H3, H4.
  clearbody n400 r1 n100 r2 n4 r3 n1 r4.
  set (Y := n400 * 400 + 1 + n100 * 100 + n4 * 4 + n1).
  assert (Hleap : is_leap Y = (n1 =? 3) && (negb (n4 =? 24) || (n100 =? 3))).
  { unfold is_leap, Y.
    destruct (Z.eqb_spec n1 3), (Z.eqb_spec n4 24), (Z.eqb_spec n100 3);
      destruct (Z.eqb_spec ((n400 * 400 + 1 + n100 * 100 + n4 * 4 + n1) mod 4) 0),
               (Z.eqb_spec ((n400 * 400 + 1 + n100 * 100 + n4 * 4 + n1) mod 100) 0),
               (Z.eqb_spec ((n400 * 400 + 1 + n100 * 100 + n4 * 4 + n1) mod 400) 0);
      cbn; try reflexivity; exfalso; Z.div_mod_to_equations; lia. }
  destruct ((n1 =? 4) || (n100 =? 4)) eqn:Hspecial.
  - intros [= <- <- <-].
    assert (Hl : is_leap (Y - 1) = true).
    { apply is_leap_true. apply orb_prop in Hspecial.
      unfold Y. destruct Hspecial as [He|He]; apply Z.eqb_eq in He;
        Z.div_mod_to_equations; lia. }
    unfold days_in_month, ymd2ord, days_before_month. rewrite Hl. cbn.
    unfold days_before_year, Y. cbv zeta.
    apply orb_prop in Hspecial.
    (destruct Hspecial as [He|He]; apply Z.eqb_eq in He;
      repeat split; try lia; Z.div_mod_to_equations; lia).
  - rewrite <- Hleap. fold Y.
    pose proof (doy2md_spec (is_leap Y) r4) as Hmd.
    unfold doy2md_ok, doy2md in Hmd. cbv zeta in Hmd.
    assert (Hyear : days_before_year Y + r4 + 1 = n /\ 1 <= Y).
    { apply orb_false_elim in Hspecial as [He1 He2].
      apply Z.eqb_neq in He1, He2.
      unfold days_before_year, Y. cbv zeta. split; Z.div_mod_to_equations; lia. }
    destruct Hyear as [Hyear Hpos].
    destruct (r4 <? _); intros [= <- <- <-];
      (match goal with
       | |- _ /\ _ <= ?mm <= 12 /\ _ <= ?dd <= _ /\ _ =>
           set (d0 := dd) in *; set (m0 := mm) in *
       end);
      clearbody m0 d0;
      (lapply Hmd; [clear Hmd; intros Hmd|destruct (is_leap Y); lia]);
      rewrite !andb_true_iff, !Z.leb_le, Z.eqb_eq in Hmd;
      unfold days_in_month, ymd2ord, days_before_month;
      (split; [exact Hpos|]); (split; [lia|]); (split; [|lia]);
      (destruct ((m0 =? 2) && is_leap Y) eqn:Hfeb; [|lia]);
      apply andb_prop in Hfeb as [Hfeb _]; apply Z.eqb_eq in Hfeb; subst m0;
      cbn in Hmd |- *; lia.
Qed.

Lemma days_before_year_mono y1 y2 :
  y1 <= y2 -> days_before_year y1 <= days_before_year y2.
Proof. unfold days_before_year. cbv zeta. intros. Z.div_mod_to_equations. lia. Qed.

(** The day of the year lies within the year. *)
Lemma day_of_year_bounds y m d :
  1 <= m <= 12 -> 1 <= d <= days_in_month y m ->
  1 <= days_before_month y m + d <= 365 + (if is_leap y then 1 else 0).
Proof.
  intros Hm. unfold days_in_month, days_before_month.
  month_cases m; destruct (is_leap y); cbn; lia.
Qed.

Lemma day_of_year_mono y m1 d1 m2 d2 :
  1 <= m1 -> m1 < m2 -> m2 <= 12 ->
  d1 <= days_in_month y m1 -> 1 <= d2 ->
  days_before_month y m1 + d1 < days_before_month y m2 + d2.
Proof.
  intros H1 H12 H2. unfold days_in_month, days_before_month.
  (month_cases m1; month_cases m2; try lia; destruct (is_leap y); cbn; lia).
Qed.

Lemma ymd2ord_cmp y1 m1 d1 y2 m2 d2 :
  1 <= m1 <= 12 -> 1 <= d1 <= days_in_month y1 m1 ->
  1 <= m2 <= 12 -> 1 <= d2 <= days_in_month y2 m2 ->
  (ymd2ord y1 m1 d1 ?= ymd2ord y2 m2 d2) = cmp_fields [y1; m1; d1] [y2; m2; d2].
Proof.
  intros Hm1 Hd1 Hm2 Hd2. unfold ymd2ord. cbn [cmp_fields].
  pose proof (day_of_year_bounds y1 m1 d1 Hm1 Hd1) as Hb1.
  pose proof (day_of_year_bounds y2 m2 d2 Hm2 Hd2) as Hb2.
  destruct (Z.compare_spec y1 y2) as [->|Hy|Hy].
  - destruct (Z.compare_spec m1 m2) as [->|Hm|Hm].
    + destruct (Z.compare_spec d1 d2) as [->|Hd|Hd].
      * apply Z.compare_refl.
      * apply Z.compare_lt_iff. lia.
      * apply Z.compare_gt_iff. lia.
    + apply Z.compare_lt_iff.
      pose proof (day_of_year_mono y2 m1 d1 m2 d2). lia.
    + apply Z.compare_gt_iff.
      pose proof (day_of_year_mono y2 m2 d2 m1 d1). lia.
  - apply Z.compare_lt_iff.
    pose proof (days_before_year_succ y1).
    pose proof (days_before_year_mono (y1 + 1) y2). lia.
  - apply Z.compare_gt_iff.
    pose proof (days_before_year_succ y2).
    pose proof (days_before_year_mono (y2 + 1) y1). lia.
Qed.

Lemma datetime_cmp_timestamp dt1 dt2 :
  valid_datetime dt1 -> valid_datetime dt2 ->
  datetime_cmp dt1 dt2 = (timestamp dt1 ?= timestamp dt2).
Proof.
  intros ((_ & Hm1 & Hd1) & Hh1 & Hmi1 & Hs1 & Hus1) ((_ & Hm2 & Hd2) & Hh2 & Hmi2 & Hs2 & Hus2).
  unfold datetime_cmp, datetime_fields, timestamp, toordinal.
  pose proof (ymd2ord_cmp _ _ _ _ _ _ Hm1 Hd1 Hm2 Hd2) as Hord.
  destruct dt1 as [y1 m1 d1 h1 mi1 s1 us1], dt2 as [y2 m2 d2 h2 mi2 s2 us2]. cbn in *.
  set (o1 := ymd2ord y1 m1 d1) in *. set (o2 := ymd2ord y2 m2 d2) in *.
  clearbody o1 o2. symmetry.
  destruct (Z.compare_spec y1 y2) as [->|Hy|Hy];
    [destruct (Z.compare_spec m1 m2) as [->|Hm|Hm];
     [destruct (Z.compare_spec d1 d2) as [->|Hd|Hd]|..]|..];
    try (change (o1 < o2) in Hord; change ((?x ?= ?y) = Lt) with (x < y); lia);
    try (change (o1 > o2) in Hord; change ((?x ?= ?y) = Gt) with (x > y); lia).
  apply Z.compare_eq_iff in Hord. subst o2.
  destruct (Z.compare_spec h1 h2) as [->|Hh|Hh];
    [destruct (Z.compare_spec mi1 mi2) as [->|Hmi|Hmi];
     [destruct (Z.compare_spec s1 s2) as [->|Hs|Hs];
      [destruct (Z.compare_spec us1 us2) as [->|Hus|Hus]|..]|..]|..];
    try (change ((?x ?= ?y) = Lt) with (x < y); lia);
    try (change ((?x ?= ?y) = Gt) with (x > y); lia).
  apply Z.compare_refl.
Qed.

Lemma cmp_fields_eq l1 : forall l2, cmp_fields l1 l2 = Eq -> l1 = l2.
Proof.
  induction l1 as [|x l1 IH]; intros [|y l2]; cbn; try discriminate; auto.
  destruct (Z.compare_spec x y) as [->|?|?]; try discriminate.
  intros Heq. f_equal. auto.
Qed.

Lemma timestamp_inj dt1 dt2 :
  valid_datetime dt1 -> valid_datetime dt2 ->
  timestamp dt1 = timestamp dt2 -> dt1 = dt2.
Proof.
  intros Hv1 Hv2 Heq.
  pose proof (datetime_cmp_timestamp dt1 dt2 Hv1 Hv2) as Hcmp.
  rewrite Heq, Z.compare_refl in Hcmp.
  apply cmp_fields_eq in Hcmp.
  destruct dt1, dt2. cbn in Hcmp. now injection Hcmp as -> -> -> -> -> -> ->.
Qed.

Lemma timedelta_new_spec d s us :
  let total := (d * 86400 + s) * 1000000 + us in
  Z.abs (total / 86400000000) <= 999999999 ->
  exists td, timedelta_new d s us = inr td /\
             to_microseconds td = total /\ valid_timedelta td /\
             days td = total / 86400000000 /\
             seconds td = total mod 86400000000 / 1000000.
Proof.
  intros total Hrange. unfold timedelta_new. cbv zeta.
  assert (Hd : d + (s + us / 1000000) / 86400 = total / 86400000000).
  { unfold total. Z.div_mod_to_equations. lia. }
  rewrite Hd. destruct (Z.leb_spec (Z.abs (total / 86400000000)) 999999999); [|lia].
  eexists. split; [reflexivity|]. unfold to_microseconds, valid_timedelta. cbn.
  repeat split; try lia; try (unfold total; Z.div_mod_to_equations; lia).
Qed.

Lemma ord2ymd_valid n y m d :
  1 <= n <= MAXORDINAL -> ord2ymd n = (y, m, d) ->
  valid_date y m d /\ ymd2ord y m d = n.
Proof.
  intros Hn Hymd.
  destruct (ord2ymd_spec n y m d) as (Hy & Hm & Hd & Hord); [lia|exact Hymd|].
  split; [|exact Hord]. split; [|auto]. split; [exact Hy|].
  destruct (Z_le_gt_dec y 9999) as [Hle|Hgt]; [exact Hle|exfalso].
  pose proof (days_before_year_mono 10000 y) as Hmono.
  pose proof (day_of_year_bounds y m d Hm Hd) as Hdoy.
  unfold ymd2ord in Hord. unfold MAXORDINAL in Hn.
  change (days_before_year 10000) with 3652059 in Hmono. lia.
Qed.

Lemma toordinal_range dt :
  valid_datetime dt -> 1 <= toordinal dt <= MAXORDINAL.
Proof.
  intros ((Hy & Hm & Hd) & _). unfold toordinal, ymd2ord.
  pose proof (day_of_year_bounds _ _ _ Hm Hd) as Hdoy.
  pose proof (days_before_year_mono 1 (year dt)) as Hlo.
  pose proof (days_before_year_mono (year dt + 1) 10000) as Hhi.
  pose proof (days_before_year_succ (year dt)) as Hsucc.
  change (days_before_year 1) with 0 in Hlo.
  change (days_before_year 10000) with 3652059 in Hhi.
  unfold MAXORDINAL. lia.
Qed.

Lemma datetime_add_spec dt td :
  valid_datetime dt -> valid_timedelta td ->
  DAY <= timestamp dt + to_microseconds td < (MAXORDINAL + 1) * DAY ->
  exists dt', datetime_add dt td = inr dt' /\ valid_datetime dt' /\
              timestamp dt' = timestamp dt + to_microseconds td.
Proof.
  intros Hv Htd Hrange. pose proof (toordinal_range dt Hv) as Hord.
  destruct Hv as (_ & Hh & Hmi & Hs & Hus). destruct Htd as (Hdays & Hsecs & Husecs).
  unfold datetime_add, timestamp, to_microseconds, DAY, MAXORDINAL in *.
  set (o := toordinal dt) in *. clearbody o.
  destruct (timedelta_new_spec o (hour dt * 3600 + minute dt * 60 + second dt)
              (microsecond dt)) as (t1 & -> & Hus1 & _ & Hd1 & Hs1).
  { cbv zeta. Z.div_mod_to_equations. lia. }
  cbn [mbind result_bind].
  destruct (timedelta_new_spec (days t1 + days td) (seconds t1 + seconds td)
              (microseconds t1 + microseconds td)) as (t2 & -> & Hus2 & Hv2 & Hd2 & Hs2).
  { cbv zeta. unfold to_microseconds in Hus1. Z.div_mod_to_equations. lia. }
  cbn [mbind result_bind]. cbv zeta.
  unfold to_microseconds in Hus1, Hus2. destruct Hv2 as (_ & Hsec2 & Husec2).
  assert (Hin : 1 <= days t2 <= 3652059) by (Z.div_mod_to_equations; lia).
  destruct (Z.ltb_spec 0 (days t2)); [|lia].
  destruct (Z.leb_spec (days t2) 3652059); [|lia]. cbn [andb].
  destruct (ord2ymd (days t2)) as [[y m] d] eqn:Hymd.
  destruct (ord2ymd_valid _ _ _ _ Hin Hymd) as (Hvd & Hback).
  eexists. split; [reflexivity|]. split.
  - unfold valid_datetime. cbn. split; [exact Hvd|].
    repeat split; try lia; Z.div_mod_to_equations; lia.
  - unfold toordinal. cbn. rewrite Hback. Z.div_mod_to_equations. lia.
Qed.

Lemma datetime_sub_spec dt1 dt2 :
  valid_datetime dt1 -> valid_datetime dt2 ->
  exists td, datetime_sub dt1 dt2 = inr td /\ valid_timedelta td /\
             to_microseconds td = timestamp dt1 - timestamp dt2.
Proof.
  intros Hv1 Hv2.
  pose proof (toordinal_range dt1 Hv1) as Ho1. pose proof (toordinal_range dt2 Hv2) as Ho2.
  destruct Hv1 as (_ & Hh1 & Hmi1 & Hs1 & Hus1). destruct Hv2 as (_ & Hh2 & Hmi2 & Hs2 & Hus2).
  unfold datetime_sub, timestamp, MAXORDINAL in *. cbv zeta.
  set (o1 := toordinal dt1) in *. set (o2 := toordinal dt2) in *. clearbody o1 o2.
  destruct (timedelta_new_spec (o1 - o2)
              (second dt1 + minute dt1 * 60 + hour dt1 * 3600
               - (second dt2 + minute dt2 * 60 + hour dt2 * 3600))
              (microsecond dt1 - microsecond dt2)) as (td & -> & Hus & Hv & _).
  { cbv zeta. Z.div_mod_to_equations. lia. }
  exists td. repeat split; try apply Hv. lia.
Qed.

Lemma timedelta_mul_spec i td :
  valid_timedelta td ->
  Z.abs (i * to_microseconds td) <= 999999999 * DAY ->
  exists td', timedelta_mul i td = inr td' /\ valid_timedelta td' /\
              to_microseconds td' = i * to_microseconds td.
Proof.
  intros (Hd & Hs & Hus) Hrange. unfold timedelta_mul, to_microseconds, DAY in *.
  destruct (timedelta_new_spec (days td * i) (seconds td * i) (microseconds td * i))
    as (td' & -> & Hus' & Hv & _).
  { cbv zeta.
    replace ((days td * i * 86400 + seconds td * i) * 1000000 + microseconds td * i)
      with (i * ((days td * 86400 + seconds td) * 1000000 + microseconds td)) by ring.
    Z.div_mod_to_equations. lia. }
  exists td'. repeat split; try apply Hv. unfold to_microseconds in *. rewrite Hus'. ring.
Qed.

Lemma round_half_even_div a b S :
  0 <= a -> 0 < b -> 0 < S -> b < 2 * S ->
  round_half_even (a * S) b / S = a / b.
Proof.
  intros Ha Hb HS HbS. unfold round_half_even. cbv zeta.
  pose proof (Z.div_mod a b ltac:(lia)) as Hab.
  pose proof (Z.mod_pos_bound a b Hb) as Hr.
  pose proof (Z.div_mod (a * S) b ltac:(lia)) as Hx.
  pose proof (Z.mod_pos_bound (a * S) b Hb) as HR.
  set (q := a / b) in *. set (r := a mod b) in *.
  set (Q := a * S / b) in *. set (R := (a * S) mod b) in *.
  clearbody q r Q R.
  assert (Hq : 0 <= q) by nia.
  assert (Hlo : q * S <= Q) by nia.
  assert (Hhi : Q <= q * S + S - 1) by nia.
  assert (Htop : Q = q * S + S - 1 -> 2 * R < b) by nia.
  symmetry. apply (Z.div_unique_pos _ _ _ (if 2 * R <? b then Q - q * S
                                            else if b <? 2 * R then Q + 1 - q * S
                                            else if Z.even Q then Q - q * S else Q + 1 - q * S)).
  - destruct (Z.ltb_spec (2 * R) b); [lia|].
    destruct (Z.ltb_spec b (2 * R)); [lia|]. destruct (Z.even Q); lia.
  - destruct (Z.ltb_spec (2 * R) b); [lia|].
    destruct (Z.ltb_spec b (2 * R)); [lia|]. destruct (Z.even Q); lia.
Qed.

(** Below 2^53 the rounding of the quotient does not reach the next
    integer: [int(a / b)] is the floor of the quotient. *)
Lemma int_truediv_exact a b :
  0 <= a < 2 ^ 53 -> 0 < b -> int_truediv a b = inr (a / b).
Proof.
  intros Ha Hb. unfold int_truediv.
  destruct (Z.eqb_spec b 0); [lia|].
  destruct (Z.eqb_spec a 0) as [->|Hne]; [now rewrite Z.div_0_l by lia|].
  rewrite Z.sgn_pos, Z.sgn_pos, !Z.abs_eq by lia.
  unfold truediv_pos, int_of_double. cbv zeta.
  set (k := Z.log2 a - Z.log2 b).
  assert (Hla : 0 <= Z.log2 a < 53).
  { split; [apply Z.log2_nonneg|apply Z.log2_lt_pow2; lia]. }
  pose proof (Z.log2_nonneg b) as Hlb.
  pose proof (Z.log2_spec b Hb) as [_ Hbhi].
  set (e := if b * pow2 k <=? a * pow2 (- k) then k - 52 else k - 53).
  assert (He : e <= 0 /\ Z.log2 b <= - e).
  { unfold e, k. destruct (_ <=? _); lia. }
  unfold pow2. rewrite (Z.max_l 0 e), (Z.max_r 0 (- e)) by lia.
  change (2 ^ 0) with 1. rewrite !Z.mul_1_r.
  assert (HS : 2 ^ Z.log2 b <= 2 ^ (- e)) by (apply Z.pow_le_mono_r; lia).
  rewrite Z.pow_succ_r in Hbhi by lia.
  f_equal. rewrite Z.mul_1_l. apply round_half_even_div; lia.
Qed.

Lemma mapM_result {A B : Type} (f : A -> result B) (P : A -> B -> Prop) l :
  (forall x, x ∈ l -> exists y, f x = inr y /\ P x y) ->
  exists k, mapM f l = inr k /\ Forall2 P l k.
Proof.
  induction l as [|x l IH]; intros Hall.
  - exists []. split; [reflexivity|constructor].
  - destruct (Hall x) as (y & Hy & HP); [apply elem_of_cons; now left|].
    destruct IH as (k & Hk & HF).
    { intros x' Hin. apply Hall. apply elem_of_cons. now right. }
    exists (y :: k). split; [|now constructor].
    cbn. rewrite Hy. cbn. rewrite Hk. reflexivity.
Qed.

Lemma timestamp_range dt :
  valid_datetime dt -> DAY <= timestamp dt < (MAXORDINAL + 1) * DAY.
Proof.
  intros Hv. pose proof (toordinal_range dt Hv) as Ho.
  destruct Hv as (_ & Hh & Hmi & Hs & Hus).
  unfold timestamp, DAY, MAXORDINAL in *. lia.
Qed.

Lemma datetime_le_timestamp dt1 dt2 :
  valid_datetime dt1 -> valid_datetime dt2 ->
  datetime_le dt1 dt2 = true <-> timestamp dt1 <= timestamp dt2.
Proof.
  intros Hv1 Hv2. unfold datetime_le. rewrite (datetime_cmp_timestamp _ _ Hv1 Hv2).
  destruct (Z.compare_spec (timestamp dt1) (timestamp dt2)); split; try lia; try discriminate; auto.
Qed.

Lemma datetime_lt_timestamp dt1 dt2 :
  valid_datetime dt1 -> valid_datetime dt2 ->
  datetime_lt dt1 dt2 = true <-> timestamp dt1 < timestamp dt2.
Proof.
  intros Hv1 Hv2. unfold datetime_lt. rewrite (datetime_cmp_timestamp _ _ Hv1 Hv2).
  destruct (Z.compare_spec (timestamp dt1) (timestamp dt2)); split; try lia; try discriminate; auto.
Qed.

Lemma enumerate_spec start stop step :
  valid_datetime start -> valid_datetime stop -> valid_timedelta step ->
  datetime_le start stop = true ->
  0 < to_microseconds step ->
  timestamp stop - timestamp start < 2 ^ 53 ->
  exists l,
    enumerate start stop step = inr l /\
    Z.of_nat (length l) = (timestamp stop - timestamp start) / to_microseconds step /\
    forall i dt, l !! i = Some dt ->
      valid_datetime dt /\
      timestamp dt = timestamp start + Z.of_nat i * to_microseconds step /\
      datetime_le start dt = true /\ datetime_lt dt stop = true.
Proof.
  intros Hv1 Hv2 Hvs Hle Hpos Hexact.
  apply (datetime_le_timestamp _ _ Hv1 Hv2) in Hle.
  pose proof (timestamp_range start Hv1) as Hr1.
  pose proof (timestamp_range stop Hv2) as Hr2.
  unfold enumerate.
  destruct (datetime_sub_spec stop start Hv2 Hv1) as (span & -> & _ & Hspan).
  cbn [mbind result_bind]. unfold timedelta_truediv_int.
  rewrite Hspan, int_truediv_exact by lia. cbn [mbind result_bind].
  set (T := timestamp stop - timestamp start) in *.
  set (S := to_microseconds step) in *.
  assert (Hn : 0 <= T / S) by (apply Z.div_pos; lia).
  pose proof (Z.mul_div_le T S Hpos) as Hfloor.
  destruct (mapM_result
              (fun i => td ← timedelta_mul i step; datetime_add start td)
              (fun i dt => valid_datetime dt /\ timestamp dt = timestamp start + i * S)
              (range (T / S))) as (l & Hl & HF).
  { intros i Hi. apply elem_of_seqZ in Hi.
    assert (HiS : 0 <= i * S /\ i * S + S <= T) by nia.
    destruct (timedelta_mul_spec i step Hvs) as (td & -> & Hvtd & Htd).
    { fold S. unfold DAY. lia. }
    cbn [mbind result_bind]. fold S in Htd.
    destruct (datetime_add_spec start td Hv1 Hvtd) as (dt & Hdt & Hvdt & Hts).
    { rewrite Htd. unfold DAY, MAXORDINAL in *. lia. }
    exists dt. rewrite Htd in Hts. auto. }
  exists l. split; [exact Hl|]. split.
  - rewrite <- (Forall2_length _ _ _ HF). unfold range. rewrite length_seqZ. lia.
  - intros i dt Hi.
    destruct (Forall2_lookup_r _ _ _ _ _ HF Hi) as (x & Hx & Hvdt & Hts).
    apply lookup_seqZ in Hx as [-> Hlt].
    assert (HiS : 0 <= Z.of_nat i * S /\ Z.of_nat i * S + S <= T) by nia.
    split; [exact Hvdt|]. split; [rewrite Hts; f_equal; lia|]. split.
    + apply (datetime_le_timestamp _ _ Hv1 Hvdt). lia.
    + apply (datetime_lt_timestamp _ _ Hvdt Hv2). unfold T in HiS. lia.
Qed.

(** ** Paths *)

Lemma strftime_name_format dt :
  strftime name_format dt =
  "/" +:+ pad4 (year dt) +:+ "/" +:+ pad2 (month dt) +:+ "/" +:+ pad2 (day dt)
  +:+ "/hmi.M_720s." +:+ pad4 (year dt) +:+ pad2 (month dt) +:+ pad2 (day dt)
  +:+ "_" +:+ pad2 (hour dt) +:+ pad2 (minute dt) +:+ pad2 (second dt).
Proof. reflexivity. Qed.

(** The formatted name starts with a slash, so joining it to a root gives
    the name alone. *)
Lemma os_path_join_absolute root name :
  startswith_sep name = true -> os_path_join root name = name.
Proof. unfold os_path_join. now intros ->. Qed.

Lemma data_path_eq input_dir dt : data_path input_dir dt = relevant_path dt.
Proof. unfold data_path. apply os_path_join_absolute. reflexivity. Qed.

Lemma output_path_eq output_dir dt :
  output_path output_dir dt = strftime name_format dt +:+ "_midline.pt".
Proof. unfold output_path. apply os_path_join_absolute. reflexivity. Qed.

Lemma digit_mod a b : digit a = digit b -> a mod 10 = b mod 10.
Proof.
  unfold digit. intros Heq.
  pose proof (Z.mod_pos_bound a 10 ltac:(lia)) as Ha.
  pose proof (Z.mod_pos_bound b 10 ltac:(lia)) as Hb.
  apply (f_equal nat_of_ascii) in Heq.
  rewrite !nat_ascii_embedding in Heq by lia. lia.
Qed.

Lemma pad2_inj a b : 0 <= a < 100 -> 0 <= b < 100 -> pad2 a = pad2 b -> a = b.
Proof.
  intros Ha Hb [= H1 H0]. apply digit_mod in H1, H0.
  Z.div_mod_to_equations. lia.
Qed.

Lemma pad4_inj a b : 0 <= a < 10000 -> 0 <= b < 10000 -> pad4 a = pad4 b -> a = b.
Proof.
  intros Ha Hb [= H3 H2 H1 H0]. apply digit_mod in H3, H2, H1, H0.
  Z.div_mod_to_equations. lia.
Qed.

(** Apart from the microseconds, the output path determines the
    timestamp. *)
Lemma output_path_inj output_dir dt1 dt2 :
  valid_datetime dt1 -> valid_datetime dt2 ->
  output_path output_dir dt1 = output_path output_dir dt2 ->
  microsecond dt1 = microsecond dt2 -> dt1 = dt2.
Proof.
  intros ((Hy1 & Hm1 & Hd1) & Hh1 & Hmi1 & Hs1 & _) ((Hy2 & Hm2 & Hd2) & Hh2 & Hmi2 & Hs2 & _).
  rewrite !output_path_eq, !strftime_name_format.
  destruct dt1 as [y1 m1 d1 h1 mi1 s1 us1], dt2 as [y2 m2 d2 h2 mi2 s2 us2].
  cbn [year month day hour minute second microsecond] in *.
  intros Hpath ->.
  assert (Hdim : forall y m d, 1 <= m <= 12 -> 1 <= d <= days_in_month y m -> d < 100).
  { intros y m d Hm. unfold days_in_month. month_cases m; destruct (is_leap y); cbn; lia. }
  pose proof (Hdim _ _ _ Hm1 Hd1) as Hd1'. pose proof (Hdim _ _ _ Hm2 Hd2) as Hd2'.
  unfold pad4, pad2 in Hpath. cbn [append] in Hpath.
  injection Hpath; intros.
  f_equal.
  - apply pad4_inj; auto; try lia. unfold pad4, pad2. congruence.
  - apply pad2_inj; auto; try lia. unfold pad2. congruence.
  - apply pad2_inj; auto; try lia. unfold pad2. congruence.
  - apply pad2_inj; auto; try lia. unfold pad2. congruence.
  - apply pad2_inj; auto; try lia. unfold pad2. congruence.
  - apply pad2_inj; auto; try lia. unfold pad2. congruence.
Qed.

(** C1, evaluated on the code: for 2012-03-04T05:00:00 the name part of both
    paths is as the template says, but the roots [/data] and [/out] are
    dropped, because the formatted name starts with a slash and
    [os.path.join] restarts at an absolute component; so it is for every
    timestamp and every root, the default ones included. *)
Theorem C1_paths_drop_their_root :
  data_path "/data" t0 = "/2012/03/04/hmi.M_720s.20120304_050000_TAI.pt" /\
  data_path "/data" t0 <> "/data/2012/03/04/hmi.M_720s.20120304_050000_TAI.pt" /\
  output_path "/out" t0 = "/2012/03/04/hmi.M_720s.20120304_050000_midline.pt" /\
  output_path "/out" t0 <> "/out/2012/03/04/hmi.M_720s.20120304_050000_midline.pt" /\
  data_path (input_dir default_args) start_date
    = "/2010/05/01/hmi.M_720s.20100501_000000_TAI.pt" /\
  (forall input_dir output_dir dt,
      data_path input_dir dt = strftime name_format dt +:+ "_TAI.pt" /\
      output_path output_dir dt = strftime name_format dt +:+ "_midline.pt").
Proof.
  repeat split; solve [reflexivity | discriminate | apply data_path_eq | apply output_path_eq].
Qed.

(** ** The timestamps of [main] *)

Lemma start_date_valid : valid_datetime start_date.
Proof. repeat split; vm_compute; solve [reflexivity | discriminate]. Qed.

Lemma end_date_valid : valid_datetime end_date.
Proof. repeat split; vm_compute; solve [reflexivity | discriminate]. Qed.

(** [data_list] holds one valid timestamp per hour, the [i]-th one [i]
    hours after [start_date], all of them before [end_date]. *)
Lemma data_list_spec :
  exists l,
    data_list = inr l /\
    Z.of_nat (length l) = 122736 /\
    forall i dt, l !! i = Some dt ->
      valid_datetime dt /\
      timestamp dt = timestamp start_date + Z.of_nat i * 3600000000 /\
      datetime_le start_date dt = true /\ datetime_lt dt end_date = true.
Proof.
  destruct (enumerate_spec start_date end_date (Timedelta 0 3600 0))
    as (l & Hl & Hlen & Hall).
  - exact start_date_valid.
  - exact end_date_valid.
  - repeat split; vm_compute; solve [reflexivity | discriminate].
  - vm_compute. reflexivity.
  - vm_compute. reflexivity.
  - vm_compute. reflexivity.
  - exists l. split; [exact Hl|]. split; [|exact Hall].
    rewrite Hlen. vm_compute. reflexivity.
Qed.

(** C3: between a start and a later end less than 2^53 microseconds apart,
    and for a positive step, [enumerate] returns the timestamps
    start + i * step for i below floor((end - start) / step), in this order,
    each of them at or after the start and strictly before the end; for
    2010-05-01 00:00 to 03:00 by the hour these are 00:00, 01:00 and 02:00;
    and every timestamp of the range of [main] lies in [start, end). *)
Theorem C3_enumerate_steps_from_start_to_below_end :
  (forall start stop step,
      valid_datetime start -> valid_datetime stop -> valid_timedelta step ->
      datetime_le start stop = true ->
      0 < to_microseconds step ->
      timestamp stop - timestamp start < 2 ^ 53 ->
      exists l,
        enumerate start stop step = inr l /\
        Z.of_nat (length l) = (timestamp stop - timestamp start) / to_microseconds step /\
        (forall dt, l !! 0%nat = Some dt -> dt = start) /\
        forall i dt, l !! i = Some dt ->
          valid_datetime dt /\
          timestamp dt = timestamp start + Z.of_nat i * to_microseconds step /\
          datetime_le start dt = true /\ datetime_lt dt stop = true) /\
  enumerate (Datetime 2010 5 1 0 0 0 0) (Datetime 2010 5 1 3 0 0 0) (Timedelta 0 3600 0) =
    inr [Datetime 2010 5 1 0 0 0 0; Datetime 2010 5 1 1 0 0 0; Datetime 2010 5 1 2 0 0 0] /\
  (exists l,
      data_list = inr l /\ Z.of_nat (length l) = 122736 /\
      forall dt, dt ∈ l ->
        datetime_le start_date dt = true /\ datetime_lt dt end_date = true).
Proof.
  split; [|split; [vm_compute; reflexivity|]].
  { intros start stop step Hv1 Hv2 Hvs Hle Hpos Hexact.
    destruct (enumerate_spec start stop step Hv1 Hv2 Hvs Hle Hpos Hexact)
      as (l & Hl & Hlen & Hall).
    exists l. split; [exact Hl|]. split; [exact Hlen|]. split; [|exact Hall].
    intros dt H0. destruct (Hall _ _ H0) as (Hv & Hts & _).
    apply timestamp_inj; auto. lia. }
  destruct data_list_spec as (l & Hl & Hlen & Hall).
  exists l. split; [exact Hl|]. split; [exact Hlen|].
  intros dt Hin. apply list_elem_of_lookup in Hin as [i Hi].
  destruct (Hall i dt Hi) as (_ & _ & Hle & Hlt). split; assumption.
Qed.

Lemma on_the_second k :
  (timestamp start_date + k * 3600000000) mod 1000000 = 0.
Proof.
  replace (timestamp start_date) with (63408355200 * 1000000) by (vm_compute; reflexivity).
  replace (63408355200 * 1000000 + k * 3600000000)
    with ((63408355200 + k * 3600) * 1000000) by ring.
  apply Z_mod_mult.
Qed.

Lemma microsecond_timestamp dt :
  valid_datetime dt -> microsecond dt = timestamp dt mod 1000000.
Proof.
  intros (_ & _ & _ & _ & Hus). unfold timestamp.
  Z.div_mod_to_equations. lia.
Qed.

(** C9: the timestamps of [data_list] are pairwise distinct, distinct ones
    get distinct output paths, and so the output paths of the tasks are
    pairwise distinct. *)
Theorem C9_output_paths_are_timestamp_unique :
  exists l,
    data_list = inr l /\
    NoDup l /\
    forall output_dir,
      (forall dt1 dt2, dt1 ∈ l -> dt2 ∈ l -> dt1 <> dt2 ->
                       output_path output_dir dt1 <> output_path output_dir dt2) /\
      NoDup (output_path output_dir <$> l).
Proof.
  destruct data_list_spec as (l & Hl & Hlen & Hall).
  assert (Hinj : forall output_dir i j dt1 dt2,
             l !! i = Some dt1 -> l !! j = Some dt2 ->
             output_path output_dir dt1 = output_path output_dir dt2 -> dt1 = dt2).
  { intros output_dir i j dt1 dt2 Hi Hj Hpath.
    destruct (Hall i dt1 Hi) as (Hv1 & Ht1 & _).
    destruct (Hall j dt2 Hj) as (Hv2 & Ht2 & _).
    apply (output_path_inj output_dir); auto.
    rewrite (microsecond_timestamp _ Hv1), (microsecond_timestamp _ Hv2), Ht1, Ht2.
    rewrite !on_the_second. reflexivity. }
  assert (Hidx : forall i j dt, l !! i = Some dt -> l !! j = Some dt -> i = j).
  { intros i j dt Hi Hj.
    destruct (Hall i dt Hi) as (_ & Ht1 & _).
    destruct (Hall j dt Hj) as (_ & Ht2 & _). lia. }
  exists l. split; [exact Hl|]. split; [apply NoDup_alt; exact Hidx|].
  intros output_dir. split.
  - intros dt1 dt2 Hin1 Hin2 Hne Hpath. apply Hne.
    apply list_elem_of_lookup in Hin1 as [i Hi].
    apply list_elem_of_lookup in Hin2 as [j Hj]. eauto.
  - apply NoDup_alt. intros i j path Hi Hj.
    rewrite list_lookup_fmap in Hi, Hj.
    destruct (l !! i) as [dt1|] eqn:Hi'; [|discriminate].
    destruct (l !! j) as [dt2|] eqn:Hj'; [|discriminate].
    assert (Hpath : output_path output_dir dt1 = output_path output_dir dt2).
    { cbn [fmap option_fmap option_map] in Hi, Hj. congruence. }
    rewrite (Hinj output_dir i j dt1 dt2 Hi' Hj' Hpath) in Hi'. eauto.
Qed.

(** ** Slicing *)

Section Slicing.
Local Open Scope nat_scope.

Lemma ravel_lt sh : forall ix o, ravel sh ix = Some o -> o < numel sh.
Proof.
  induction sh as [|d sh IH]; intros [|i ix] o; cbn [ravel]; try discriminate.
  - intros [= <-]. cbn. lia.
  - change (numel (d :: sh)) with (d * numel sh).
    destruct (Nat.ltb_spec i d); [|discriminate].
    destruct (ravel sh ix) as [o'|] eqn:Hr; cbn; [|discriminate].
    intros [= <-]. specialize (IH _ _ Hr). nia.
Qed.

(** A list made of [n] blocks of [r] elements each. *)
Lemma blocks_length {A} (f : nat -> list A) r n : forall a,
  (forall j, a <= j < a + n -> length (f j) = r) ->
  length (flat_map f (seq a n)) = n * r.
Proof.
  induction n as [|n IH]; intros a Hlen; [reflexivity|].
  cbn [seq flat_map]. rewrite length_app, IH, Hlen by (try (intros; apply Hlen); lia). lia.
Qed.

Lemma blocks_lookup {A} (f : nat -> list A) r n : forall a i o,
  (forall j, a <= j < a + n -> length (f j) = r) ->
  i < n -> o < r ->
  flat_map f (seq a n) !! (i * r + o) = f (a + i) !! o.
Proof.
  induction n as [|n IH]; intros a i o Hlen Hi Ho; [lia|].
  cbn [seq flat_map]. destruct i as [|i].
  - rewrite lookup_app_l by (rewrite Hlen; lia). now rewrite Nat.add_0_r.
  - rewrite lookup_app_r by (rewrite Hlen; nia).
    rewrite Hlen by lia. replace (S i * r + o - r) with (i * r + o) by nia.
    rewrite IH by (try (intros; apply Hlen); lia). f_equal. f_equal. lia.
Qed.

(** On a well-formed tensor with index [c] in its second dimension,
    [t[:, c]] is column [c]. *)
Lemma getitem_colon_int_is_column grid c d0 d1 rest :
  tensor_wf grid -> shape grid = d0 :: d1 :: rest -> c < d1 ->
  exists col, getitem_colon_int grid c = inr col /\ is_column c grid col.
Proof.
  intros Hwf Hsh Hc. unfold getitem_colon_int. rewrite Hsh.
  destruct (Nat.ltb_spec c d1); [|lia]. eexists. split; [reflexivity|].
  unfold tensor_wf in Hwf. rewrite Hsh in Hwf. cbn in Hwf.
  fold (numel rest) in Hwf. set (r := numel rest) in *.
  assert (Hblock : forall j, 0 <= j < 0 + d0 ->
            length (take r (drop ((j * d1 + c) * r) (data grid))) = r).
  { intros j Hj. rewrite length_take, length_drop, Hwf.
    assert (Hrow : j * d1 + c + 1 <= d0 * d1) by nia.
    apply (Nat.mul_le_mono_r _ _ r) in Hrow. lia. }
  unfold is_column. rewrite Hsh. split; [reflexivity|]. split.
  { unfold tensor_wf. cbn. fold (numel rest). fold r.
    now apply blocks_length. }
  intros i js. unfold tensor_get. rewrite Hsh. cbn [shape data ravel].
  change (numel (d1 :: rest)) with (d1 * r). fold r.
  destruct (Nat.ltb_spec i d0); [|reflexivity].
  destruct (Nat.ltb_spec c d1); [|lia].
  destruct (ravel rest js) as [o|] eqn:Hr; [|reflexivity].
  pose proof (ravel_lt _ _ _ Hr) as Ho. fold r in Ho. cbn [mbind option_bind].
  rewrite (blocks_lookup _ r) by (auto; lia).
  rewrite lookup_take_lt, lookup_drop by lia. f_equal. nia.
Qed.
End Slicing.

(** ** One run of [sel_mid_line] *)

Section Run.
Context `{Env}.

(** A run is the four steps followed by the line of the outcome. *)
Lemma run_sel_mid_line s input_dir output_dir dt :
  run (sel_mid_line input_dir output_dir dt) s =
  let '(w, r) := attempt (fs s) input_dir output_dir dt in
  let oc := outcome_of output_dir dt r in
  (State w (stdout s ++ outcome_line dt oc), outcome_result oc).
Proof.
  assert (Hh : forall e w,
    run (if isinstance_FileNotFoundError e
         then perform (Print (skip_line dt));; Return None
         else if isinstance_Exception e
              then perform (Print (failure_line dt e));; Return None
              else Raise e) (State w (stdout s)) =
    (State w (stdout s ++ outcome_line dt (outcome_of output_dir dt (inl e))),
     outcome_result (outcome_of output_dir dt (inl e)))).
  { intros e w. unfold outcome_of.
    destruct (isinstance_FileNotFoundError e); [reflexivity|].
    destruct (isinstance_Exception e); cbn; [reflexivity|].
    now rewrite app_nil_r. }
  unfold sel_mid_line, attempt. destruct s as [w out]. cbn in *.
  destruct (torch_load w _) as [e|grid]; cbn; [apply Hh|].
  destruct (getitem_colon_int grid 512) as [e|col]; cbn; [apply Hh|].
  destruct (os_makedirs w _) as [w1 [e|[]]]; cbn; [apply Hh|].
  destruct (torch_save w1 col _) as [w2 [e|[]]]; cbn; [apply Hh|].
  reflexivity.
Qed.

Lemma calls_sel_mid_line s input_dir output_dir dt :
  calls (sel_mid_line input_dir output_dir dt) s =
  (attempt_calls (fs s) input_dir output_dir dt ++
   (Print <$> outcome_line dt (outcome_of output_dir dt
                                 (snd (attempt (fs s) input_dir output_dir dt)))))%list.
Proof.
  assert (Hh : forall e w,
    calls (if isinstance_FileNotFoundError e
           then perform (Print (skip_line dt));; Return (@None string)
           else if isinstance_Exception e
                then perform (Print (failure_line dt e));; Return None
                else Raise e) (State w (stdout s)) =
    Print <$> outcome_line dt (outcome_of output_dir dt (inl e))).
  { intros e w. unfold outcome_of.
    destruct (isinstance_FileNotFoundError e); [reflexivity|].
    destruct (isinstance_Exception e); reflexivity. }
  unfold sel_mid_line, attempt, attempt_calls. destruct s as [w out]. cbn in *.
  destruct (torch_load w _) as [e|grid]; cbn; [now rewrite Hh|].
  destruct (getitem_colon_int grid 512) as [e|col]; cbn; [now rewrite Hh|].
  destruct (os_makedirs w _) as [w1 [e|[]]]; cbn; [now rewrite Hh|].
  destruct (torch_save w1 col _) as [w2 [e|[]]]; cbn; [now rewrite Hh|].
  reflexivity.
Qed.

(** C5: when the load raises [FileNotFoundError], the run prints the skip
    line (not the error line), returns [None] without raising, calls
    neither [os.makedirs] nor [torch.save], and leaves the file system as
    it was. *)
Theorem C5_missing_input_is_skipped s input_dir output_dir dt e :
  torch_load (fs s) (data_path input_dir dt) = inl e ->
  isinstance_FileNotFoundError e = true ->
  run (sel_mid_line input_dir output_dir dt) s =
    (State (fs s) (stdout s ++ [skip_line dt]), inr None) /\
  calls (sel_mid_line input_dir output_dir dt) s =
    [TorchLoad (data_path input_dir dt); Print (skip_line dt)] /\
  skip_line dt <> failure_line dt e.
Proof.
  intros Hload Hfnf. rewrite run_sel_mid_line, calls_sel_mid_line.
  unfold attempt, attempt_calls. rewrite Hload. cbn. rewrite Hfnf. cbn.
  repeat split. discriminate.
Qed.

Lemma getitem_colon_int_raises t idx e :
  getitem_colon_int t idx = inl e -> exc_type e = IndexError.
Proof.
  unfold getitem_colon_int.
  destruct (shape t) as [|d0 [|d1 rest]]; try (intros [= <-]; reflexivity).
  destruct (Nat.ltb idx d1); [discriminate|]. now intros [= <-].
Qed.

Lemma getitem_colon_int_lacks t idx :
  lacks_column idx t -> exists e, getitem_colon_int t idx = inl e.
Proof.
  intros Hlack. unfold getitem_colon_int.
  destruct (shape t) as [|d0 [|d1 rest]] eqn:Hsh; eauto.
  specialize (Hlack _ _ _ Hsh).
  destruct (Nat.ltb_spec idx d1); [lia|eauto].
Qed.

(** C6: when the loaded grid has no index 512 in its second dimension,
    the slice raises [IndexError], which the catch-all clause turns into
    the failure line; the run returns [None], raises nothing, and stops
    before [os.makedirs]. *)
Theorem C6_narrow_grid_is_a_failure s input_dir output_dir dt grid :
  torch_load (fs s) (data_path input_dir dt) = inr grid ->
  lacks_column 512 grid ->
  exists e,
    exc_type e = IndexError /\
    run (sel_mid_line input_dir output_dir dt) s =
      (State (fs s) (stdout s ++ [failure_line dt e]), inr None) /\
    calls (sel_mid_line input_dir output_dir dt) s =
      [TorchLoad (data_path input_dir dt); Print (failure_line dt e)].
Proof.
  intros Hload Hlack.
  destruct (getitem_colon_int_lacks _ _ Hlack) as [e He].
  pose proof (getitem_colon_int_raises _ _ _ He) as Hty.
  exists e. split; [exact Hty|].
  rewrite run_sel_mid_line, calls_sel_mid_line.
  unfold attempt, attempt_calls. rewrite Hload, He. cbn.
  unfold outcome_of, isinstance_FileNotFoundError, isinstance_Exception.
  rewrite Hty. split; reflexivity.
Qed.

Lemma prints_are_not_writes (lines : list string) :
  Forall (fun c => is_write c = false) (Print <$> lines).
Proof. induction lines; constructor; auto. Qed.

(** C10: when the load or the slice raises, whatever the exception, the
    file system after the run is the one before it, and no call of the
    run is [os.makedirs] or [torch.save]. *)
Theorem C10_early_failure_leaves_fs s input_dir output_dir dt :
  (exists e, torch_load (fs s) (data_path input_dir dt) = inl e) \/
  (exists grid e, torch_load (fs s) (data_path input_dir dt) = inr grid /\
                  getitem_colon_int grid 512 = inl e) ->
  fs (fst (run (sel_mid_line input_dir output_dir dt) s)) = fs s /\
  Forall (fun c => is_write c = false) (calls (sel_mid_line input_dir output_dir dt) s).
Proof.
  intros Hfail. rewrite run_sel_mid_line, calls_sel_mid_line.
  unfold attempt, attempt_calls.
  destruct Hfail as [[e Hload]|(grid & e & Hload & Hslice)];
    rewrite Hload; [|rewrite Hslice]; (split; [reflexivity|]);
    (constructor; [reflexivity|]); apply prints_are_not_writes.
Qed.

Lemma attempt_raises input_dir output_dir dt w e :
  raises_only_Exception ->
  snd (attempt w input_dir output_dir dt) = inl e -> isinstance_Exception e = true.
Proof.
  intros (Hl & Hm & Hs). unfold attempt.
  destruct (torch_load w _) as [e1|grid] eqn:Hload; cbn.
  { intros [= <-]. eauto. }
  destruct (getitem_colon_int grid 512) as [e1|col] eqn:Hslice; cbn.
  { intros [= <-]. unfold isinstance_Exception.
    now rewrite (getitem_colon_int_raises _ _ _ Hslice). }
  destruct (os_makedirs w _) as [w1 [e1|[]]] eqn:Hmk; cbn.
  { intros [= <-]. eauto. }
  destruct (torch_save w1 col _) as [w2 [e1|[]]] eqn:Hsv; cbn; [|discriminate].
  intros [= <-]. eauto.
Qed.

(** Under [raises_only_Exception] a run never raises. *)
Lemma sel_mid_line_returns s input_dir output_dir dt :
  raises_only_Exception ->
  exists res, snd (run (sel_mid_line input_dir output_dir dt) s) = inr res.
Proof.
  intros Hexc. rewrite run_sel_mid_line.
  destruct (attempt (fs s) input_dir output_dir dt) as [w [e|[]]] eqn:Hatt; cbn; eauto.
  pose proof (attempt_raises input_dir output_dir dt (fs s) e Hexc) as He.
  rewrite Hatt in He. specialize (He eq_refl). unfold outcome_of. rewrite He.
  destruct (isinstance_FileNotFoundError e); cbn; eauto.
Qed.


Lemma run_success s input_dir output_dir dt s' path :
  run (sel_mid_line input_dir output_dir dt) s = (s', inr (Some path)) ->
  path = output_path output_dir dt /\
  attempt (fs s) input_dir output_dir dt = (fs s', inr tt) /\
  stdout s' = (stdout s ++ [success_line dt])%list.
Proof.
  rewrite run_sel_mid_line.
  destruct (attempt (fs s) input_dir output_dir dt) as [w [e|[]]]; cbn.
  - unfold outcome_of. destruct (isinstance_FileNotFoundError e); [discriminate|].
    destruct (isinstance_Exception e); discriminate.
  - intros [= <- <-]. auto.
Qed.

(** A successful attempt made its four calls and saved last. *)
Lemma attempt_success w input_dir output_dir dt w' :
  attempt w input_dir output_dir dt = (w', inr tt) ->
  exists grid col w1,
    torch_load w (data_path input_dir dt) = inr grid /\
    getitem_colon_int grid 512 = inr col /\
    os_makedirs w (os_path_dirname (output_path output_dir dt)) = (w1, inr tt) /\
    torch_save w1 col (output_path output_dir dt) = (w', inr tt) /\
    attempt_calls w input_dir output_dir dt =
      [TorchLoad (data_path input_dir dt);
       OsMakedirs (os_path_dirname (output_path output_dir dt));
       TorchSave col (output_path output_dir dt)].
Proof.
  unfold attempt, attempt_calls.
  destruct (torch_load w _) as [e|grid] eqn:Hload; [discriminate|].
  destruct (getitem_colon_int grid 512) as [e|col] eqn:Hslice; [discriminate|].
  destruct (os_makedirs w _) as [w1 [e|[]]] eqn:Hmk; [discriminate|].
  intros Hsave. exists grid, col, w1. repeat split; auto.
Qed.

(** C4: when the loaded grid is at least 513 wide, the slice [data[:, 512]]
    goes through and is column 512 of that grid; it is the only array a run
    hands to [torch.save], and it goes to the output path; once
    [os.makedirs] has gone through the run does call [torch.save] with it,
    and when the save goes through too the run returns the output path on
    the file system the save left; after a successful run the file at the
    output path holds that column. *)
Theorem C4_saved_array_is_column_512 s input_dir output_dir dt grid d0 d1 rest :
  torch_load (fs s) (data_path input_dir dt) = inr grid ->
  tensor_wf grid ->
  shape grid = d0 :: d1 :: rest ->
  (513 <= d1)%nat ->
  exists col,
    getitem_colon_int grid 512 = inr col /\
    is_column 512 grid col /\
    (forall obj path,
        TorchSave obj path ∈ calls (sel_mid_line input_dir output_dir dt) s ->
        obj = col /\ path = output_path output_dir dt) /\
    (forall w1,
        os_makedirs (fs s) (os_path_dirname (output_path output_dir dt)) = (w1, inr tt) ->
        TorchSave col (output_path output_dir dt)
          ∈ calls (sel_mid_line input_dir output_dir dt) s /\
        forall w2,
          torch_save w1 col (output_path output_dir dt) = (w2, inr tt) ->
          run (sel_mid_line input_dir output_dir dt) s =
            (State w2 (stdout s ++ [success_line dt]),
             inr (Some (output_path output_dir dt))) /\
          (save_then_load -> torch_load w2 (output_path output_dir dt) = inr col)) /\
    (forall s' path,
        run (sel_mid_line input_dir output_dir dt) s = (s', inr (Some path)) ->
        TorchSave col path ∈ calls (sel_mid_line input_dir output_dir dt) s /\
        (save_then_load -> torch_load (fs s') path = inr col)).
Proof.
  intros Hload Hwf Hsh Hwide.
  assert (Hc : (512 < d1)%nat) by lia.
  destruct (getitem_colon_int_is_column grid 512 d0 d1 rest Hwf Hsh Hc)
    as (col & Hslice & Hcol).
  exists col. split; [exact Hslice|]. split; [exact Hcol|]. split; [|split].
  - intros obj path. rewrite calls_sel_mid_line. unfold attempt_calls.
    rewrite Hload, Hslice. intros Hin.
    apply elem_of_app in Hin as [Hin|Hin].
    + apply elem_of_cons in Hin as [Heq|Hin]; [discriminate|].
      apply elem_of_cons in Hin as [Heq|Hin]; [discriminate|].
      destruct (os_makedirs (fs s) _) as [w1 [e|[]]].
      * now apply elem_of_nil in Hin.
      * apply list_elem_of_singleton in Hin. now injection Hin as -> ->.
    + apply list_elem_of_fmap in Hin as (line & Heq & _). discriminate.
  - intros w1 Hmk. split.
    + rewrite calls_sel_mid_line. unfold attempt_calls.
      rewrite Hload, Hslice, Hmk. apply elem_of_app. left.
      rewrite !elem_of_cons. auto.
    + intros w2 Hsave. split.
      * rewrite run_sel_mid_line. unfold attempt.
        rewrite Hload, Hslice, Hmk, Hsave. reflexivity.
      * intros Hlaw. exact (Hlaw _ _ _ _ Hsave).
  - intros s' path Hrun.
    apply run_success in Hrun as (-> & Hatt & _).
    pose proof Hatt as Hatt'.
    apply attempt_success in Hatt as (grid' & col' & w1 & Hl & Hg & _ & Hsave & Hcalls).
    rewrite Hload in Hl. injection Hl as <-.
    rewrite Hslice in Hg. injection Hg as <-.
    split.
    + rewrite calls_sel_mid_line, Hcalls. apply elem_of_app. left.
      rewrite !elem_of_cons. auto.
    + intros Hlaw. exact (Hlaw _ _ _ _ Hsave).
Qed.

(** C8: after a successful run, a second run on the same input loads the
    grid again and calls [os.makedirs]; nothing it calls asks whether the
    output exists, and once the directory is there it saves the same column
    to the same path; when it succeeds it has made the very calls of the
    first run, and the file at the output path holds that column after
    either run. *)
Theorem C8_rerun_overwrites_with_the_same_column s0 s1 input_dir output_dir dt path1 :
  save_then_load ->
  run (sel_mid_line input_dir output_dir dt) s0 = (s1, inr (Some path1)) ->
  torch_load (fs s1) (data_path input_dir dt) = torch_load (fs s0) (data_path input_dir dt) ->
  path1 = output_path output_dir dt /\
  exists grid col,
    torch_load (fs s0) (data_path input_dir dt) = inr grid /\
    getitem_colon_int grid 512 = inr col /\
    torch_load (fs s1) path1 = inr col /\
    calls (sel_mid_line input_dir output_dir dt) s0 =
      [TorchLoad (data_path input_dir dt);
       OsMakedirs (os_path_dirname path1);
       TorchSave col path1;
       Print (success_line dt)] /\
    (forall w, os_makedirs (fs s1) (os_path_dirname path1) = (w, inr tt) ->
               TorchSave col path1 ∈ calls (sel_mid_line input_dir output_dir dt) s1) /\
    (forall s2 path2,
        run (sel_mid_line input_dir output_dir dt) s1 = (s2, inr (Some path2)) ->
        path2 = path1 /\
        torch_load (fs s2) path2 = inr col /\
        calls (sel_mid_line input_dir output_dir dt) s1 =
          calls (sel_mid_line input_dir output_dir dt) s0).
Proof.
  intros Hlaw Hrun1 Hsame.
  apply run_success in Hrun1 as (-> & Hatt1 & _).
  split; [reflexivity|].
  rewrite !calls_sel_mid_line, Hatt1.
  apply attempt_success in Hatt1 as (grid & col & w1 & Hl1 & Hg1 & _ & Hsave1 & ->).
  exists grid, col.
  split; [exact Hl1|]. split; [exact Hg1|]. split; [eauto|]. split; [reflexivity|].
  split.
  - intros w Hmk. apply elem_of_app. left.
    unfold attempt_calls. rewrite Hsame, Hl1, Hg1, Hmk.
    rewrite !elem_of_cons. auto.
  - intros s2 path2 Hrun2.
    apply run_success in Hrun2 as (-> & Hatt2 & _). rewrite Hatt2.
    apply attempt_success in Hatt2 as (grid' & col' & w1' & Hl2 & Hg2 & _ & Hsave2 & ->).
    rewrite Hsame, Hl1 in Hl2. injection Hl2 as <-.
    rewrite Hg1 in Hg2. injection Hg2 as <-.
    split; [reflexivity|]. split; [eauto|reflexivity].
Qed.

End Run.

(** ** The thread pool *)

Section Pool.
Context `{Env}.
Variables (num_cpus : Z) (input_dir output_dir : string).

Local Abbreviation step := (pool_step num_cpus input_dir output_dir).


Lemma exec_call_stdout c s s' r :
  exec_call c s = (s', r) ->
  stdout s' = (stdout s ++ match c with Print line => [line] | _ => [] end)%list.
Proof.
  destruct c as [path|path|obj path|line]; cbn.
  - intros [= <- _]. now rewrite app_nil_r.
  - destruct (os_makedirs (fs s) path) as [w r']. intros [= <- _]. cbn.
    now rewrite app_nil_r.
  - destruct (torch_save (fs s) obj path) as [w r']. intros [= <- _]. cbn.
    now rewrite app_nil_r.
  - now intros [= <- _].
Qed.







Lemma step_dates P P' :
  step P P' -> f_date <$> p_futures P' = f_date <$> p_futures P.
Proof.
  intros Hstep.
  destruct Hstep as [s futs m i d y Hi Hcap
                    |s futs m i d y c k s' r Hi Hexec
                    |s futs m i d y a Hi
                    |s futs m i d y e Hi
                    |s futs i d r s' res Hi Hrun]; cbn;
    rewrite list_fmap_insert; cbn;
    apply list_insert_id; rewrite list_lookup_fmap, Hi; reflexivity.
Qed.

Lemma running_none futs :
  ~ Exists (fun f => is_running f = true) futs -> running futs = 0%nat.
Proof.
  induction futs as [|f futs IH]; intros Hnone; [reflexivity|].
  unfold running. rewrite filter_cons_False.
  - apply IH. intros Hex. apply Hnone. now right.
  - intros Hf. apply Hnone. left. now apply Is_true_eq_true.
Qed.










End Pool.

(** ** The in-memory file system as outside world *)

Lemma mem_mkdirs_raises dirs : forall w w' e,
  mem_mkdirs w dirs = (w', inl e) -> isinstance_Exception e = true.
Proof.
  induction dirs as [|d dirs IH]; intros w w' e; cbn; [discriminate|].
  destruct (w !! d) as [[|c]|]; eauto.
  intros [= _ <-]. now destruct dirs.
Qed.

Lemma mem_load_raises (w : gmap string node) path e :
  mem_load w path = inl e -> isinstance_Exception e = true.
Proof.
  unfold mem_load.
  destruct (w !! path) as [[|[t|]]|]; intros Heq; inversion Heq; reflexivity.
Qed.

Lemma mem_save_raises (w : gmap string node) obj path w' e :
  mem_save w obj path = (w', inl e) -> isinstance_Exception e = true.
Proof.
  unfold mem_save.
  destruct (w !! path) as [[|c]|]; [intros Heq; inversion Heq; reflexivity| |];
    (destruct (is_root _); [discriminate|]);
    destruct (w !! os_path_dirname path) as [[|c']|];
    intros Heq; inversion Heq; reflexivity.
Qed.

Lemma mem_raises_only_Exception : @raises_only_Exception mem_env.
Proof.
  repeat split.
  - exact mem_load_raises.
  - intros w path w' e. apply mem_mkdirs_raises.
  - exact mem_save_raises.
Qed.

Lemma mem_save_load (w : gmap string node) obj path w' :
  mem_save w obj path = (w', inr tt) -> mem_load w' path = inr obj.
Proof.
  unfold mem_save, mem_load.
  assert (Hins : <[path := File (Pickle obj)]> w !! path = Some (File (Pickle obj)))
    by apply lookup_insert_eq.
  destruct (w !! path) as [[|c]|]; [discriminate| |];
    (destruct (is_root _); [intros [= <-]; now rewrite Hins|]);
    destruct (w !! os_path_dirname path) as [[|c']|];
    intros Heq; inversion Heq; subst; now rewrite Hins.
Qed.

Lemma mem_save_then_load : @save_then_load mem_env.
Proof. exact mem_save_load. Qed.

Lemma C5_missing_input_witness :
  run (sel_mid_line "/data" "/out" t0) (mem_state w_missing []) =
    (mem_state w_missing [skip_line t0], inr None) /\
  calls (sel_mid_line "/data" "/out" t0) (mem_state w_missing []) =
    [TorchLoad (data_path "/data" t0); Print (skip_line t0)] /\
  skip_line t0 <> failure_line t0 e_missing.
Proof.
  apply (C5_missing_input_is_skipped (mem_state w_missing []) "/data" "/out" t0 e_missing);
    reflexivity.
Defined.

Lemma C6_narrow_grid_witness :
  exists e,
    exc_type e = IndexError /\
    run (sel_mid_line "/data" "/out" t0) (mem_state w_narrow []) =
      (mem_state w_narrow [failure_line t0 e], inr None) /\
    calls (sel_mid_line "/data" "/out" t0) (mem_state w_narrow []) =
      [TorchLoad (data_path "/data" t0); Print (failure_line t0 e)].
Proof.
  apply (C6_narrow_grid_is_a_failure (mem_state w_narrow []) "/data" "/out" t0 narrow0).
  - reflexivity.
  - intros d0 d1 rest [= _ <- _]. lia.
Defined.

Lemma C10_early_failure_witness :
  fs (fst (run (sel_mid_line "/data" "/out" t0) (mem_state w_corrupt []))) = fs (mem_state w_corrupt []) /\
  Forall (fun c => is_write c = false)
         (calls (sel_mid_line "/data" "/out" t0) (mem_state w_corrupt [])).
Proof.
  apply (C10_early_failure_leaves_fs (mem_state w_corrupt []) "/data" "/out" t0).
  left. exists e_corrupt. reflexivity.
Defined.



Lemma C4_saved_array_witness :
  exists col,
    getitem_colon_int grid0 512 = inr col /\
    is_column 512 grid0 col /\
    (forall obj path,
        TorchSave obj path ∈ calls (sel_mid_line "/data" "/out" t0) (mem_state w_valid []) ->
        obj = col /\ path = output_path "/out" t0) /\
    (forall w1,
        os_makedirs (fs (mem_state w_valid [])) (os_path_dirname (output_path "/out" t0))
          = (w1, inr tt) ->
        TorchSave col (output_path "/out" t0)
          ∈ calls (sel_mid_line "/data" "/out" t0) (mem_state w_valid []) /\
        forall w2,
          torch_save w1 col (output_path "/out" t0) = (w2, inr tt) ->
          run (sel_mid_line "/data" "/out" t0) (mem_state w_valid []) =
            (State w2 (stdout (mem_state w_valid []) ++ [success_line t0]),
             inr (Some (output_path "/out" t0))) /\
          (save_then_load -> torch_load w2 (output_path "/out" t0) = inr col)) /\
    (forall s' path,
        run (sel_mid_line "/data" "/out" t0) (mem_state w_valid []) = (s', inr (Some path)) ->
        TorchSave col path ∈ calls (sel_mid_line "/data" "/out" t0) (mem_state w_valid []) /\
        (save_then_load -> torch_load (fs s') path = inr col)).
Proof.
  apply (C4_saved_array_is_column_512 (mem_state w_valid []) "/data" "/out" t0 grid0
           2%nat 513%nat []).
  - reflexivity.
  - reflexivity.
  - reflexivity.
  - lia.
Defined.

Lemma run_eta `{Env} {A} (p : prog A) s r :
  snd (run p s) = r -> run p s = (fst (run p s), r).
Proof. intros <-. now destruct (run p s). Qed.

Lemma C8_rerun_witness :
  output_path "/out" t0 = output_path "/out" t0 /\
  exists grid col,
    torch_load (fs (mem_state w_valid [])) (data_path "/data" t0) = inr grid /\
    getitem_colon_int grid 512 = inr col /\
    torch_load (fs once) (output_path "/out" t0) = inr col /\
    calls (sel_mid_line "/data" "/out" t0) (mem_state w_valid []) =
      [TorchLoad (data_path "/data" t0);
       OsMakedirs (os_path_dirname (output_path "/out" t0));
       TorchSave col (output_path "/out" t0);
       Print (success_line t0)] /\
    (forall w, os_makedirs (fs once) (os_path_dirname (output_path "/out" t0)) = (w, inr tt) ->
               TorchSave col (output_path "/out" t0)
                 ∈ calls (sel_mid_line "/data" "/out" t0) once) /\
    (forall s2 path2,
        run (sel_mid_line "/data" "/out" t0) once = (s2, inr (Some path2)) ->
        path2 = output_path "/out" t0 /\
        torch_load (fs s2) path2 = inr col /\
        calls (sel_mid_line "/data" "/out" t0) once =
          calls (sel_mid_line "/data" "/out" t0) (mem_state w_valid [])).
Proof.
  apply (C8_rerun_overwrites_with_the_same_column
           (mem_state w_valid []) once "/data" "/out" t0).
  - apply mem_save_then_load.
  - apply run_eta. vm_compute. reflexivity.
  - vm_compute. reflexivity.
Defined.

(** In the in-memory file system the second run does succeed, and leaves
    the file system as the first run left it. *)
Lemma rerun_in_memory :
  snd (run (sel_mid_line "/data" "/out" t0) once) = inr (Some (output_path "/out" t0)) /\
  fs (fst (run (sel_mid_line "/data" "/out" t0) once)) = fs once.
Proof. split; vm_compute; reflexivity. Qed.

Lemma C3_enumerate_witness :
  exists l,
    enumerate (Datetime 2010 5 1 0 0 0 0) (Datetime 2010 5 1 3 0 0 0) (Timedelta 0 3600 0)
      = inr l /\
    Z.of_nat (length l) =
      (timestamp (Datetime 2010 5 1 3 0 0 0) - timestamp (Datetime 2010 5 1 0 0 0 0))
      / to_microseconds (Timedelta 0 3600 0) /\
    (forall dt, l !! 0%nat = Some dt -> dt = Datetime 2010 5 1 0 0 0 0) /\
    forall i dt, l !! i = Some dt ->
      valid_datetime dt /\
      timestamp dt = timestamp (Datetime 2010 5 1 0 0 0 0)
                     + Z.of_nat i * to_microseconds (Timedelta 0 3600 0) /\
      datetime_le (Datetime 2010 5 1 0 0 0 0) dt = true /\
      datetime_lt dt (Datetime 2010 5 1 3 0 0 0) = true.
Proof.
  apply (proj1 C3_enumerate_steps_from_start_to_below_end).
  - repeat split; vm_compute; solve [reflexivity | discriminate].
  - repeat split; vm_compute; solve [reflexivity | discriminate].
  - repeat split; vm_compute; solve [reflexivity | discriminate].
  - reflexivity.
  - reflexivity.
  - reflexivity.
Defined.


(** ** The paths, once more *)

Lemma output_path_not_data_path input_dir output_dir dt1 dt2 :
  output_path output_dir dt1 <> data_path input_dir dt2.
Proof.
  rewrite output_path_eq, data_path_eq. unfold relevant_path.
  rewrite !strftime_name_format. unfold pad4, pad2. cbn [append].
  intros Heq. discriminate Heq.
Qed.

(** X1: whatever the two roots and the timestamps of a batch are, no output
    path of the batch is an input path of it: no task reads what a task
    writes. *)
Theorem outputs_are_no_inputs input_dir output_dir (dates : list datetime) :
  Forall (fun path => path ∉ data_path input_dir <$> dates)
         (output_path output_dir <$> dates).
Proof.
  apply Forall_fmap, Forall_forall. intros dt1 _.
  intros (dt2 & Heq & _)%list_elem_of_fmap.
  exact (output_path_not_data_path _ _ _ _ Heq).
Qed.

Lemma digit_not_sep n : Ascii.eqb (digit n) "/" = false.
Proof.
  unfold digit. pose proof (Z.mod_pos_bound n 10 ltac:(lia)) as Hn.
  set (k := Z.to_nat (n mod 10)). assert (Hk : (k < 10)%nat) by lia. clearbody k.
  do 10 (destruct k as [|k]; [reflexivity|]). lia.
Qed.

Lemma list_ascii_of_string_app a b :
  list_ascii_of_string (a +:+ b) = (list_ascii_of_string a ++ list_ascii_of_string b)%list.
Proof.
  induction a as [|c a IH]; [reflexivity|].
  change (c :: list_ascii_of_string (a +:+ b) = c :: (list_ascii_of_string a ++ list_ascii_of_string b))%list.
  now rewrite IH.
Qed.

Lemma string_of_list_ascii_app l k :
  string_of_list_ascii (l ++ k) = string_of_list_ascii l +:+ string_of_list_ascii k.
Proof.
  induction l as [|c l IH]; [reflexivity|].
  change (String c (string_of_list_ascii (l ++ k))
          = String c (string_of_list_ascii l +:+ string_of_list_ascii k)).
  now rewrite IH.
Qed.

Lemma drop_until_sep_app l k :
  Forall (fun c => Ascii.eqb c "/" = false) l ->
  drop_until_sep (l ++ "/"%char :: k) = "/"%char :: k.
Proof.
  induction 1 as [|c l Hc _ IH]; cbn; [reflexivity|]. now rewrite Hc.
Qed.

(** [os.path.dirname] undoes the joining of a name without slash to a path
    that does not end in one. *)
Lemma dirname_of_joined q c n :
  Ascii.eqb c "/" = false -> no_sep n ->
  os_path_dirname ((q +:+ String c "") +:+ "/" +:+ n) = q +:+ String c "".
Proof.
  intros Hc Hn. unfold os_path_dirname.
  rewrite !list_ascii_of_string_app. cbn [list_ascii_of_string app].
  rewrite List.rev_app_distr. cbn [List.rev app]. rewrite List.rev_app_distr.
  cbn [List.rev app]. rewrite <- List.app_assoc. cbn [app].
  rewrite drop_until_sep_app by (apply Forall_rev; exact Hn).
  cbn [lstrip_sep]. change (Ascii.eqb "/" "/") with true. cbn [lstrip_sep]. rewrite Hc.
  cbn [List.rev]. rewrite List.rev_involutive, string_of_list_ascii_app.
  now rewrite string_of_list_ascii_of_string.
Qed.

Lemma output_path_split output_dir dt :
  output_path output_dir dt = day_dir dt +:+ "/" +:+ (stamp dt +:+ "_midline.pt").
Proof. rewrite output_path_eq, strftime_name_format. reflexivity. Qed.

Lemma data_path_split input_dir dt :
  data_path input_dir dt = day_dir dt +:+ "/" +:+ (stamp dt +:+ "_TAI.pt").
Proof. rewrite data_path_eq. unfold relevant_path. rewrite strftime_name_format. reflexivity. Qed.

Lemma stamp_no_sep dt suffix : no_sep suffix -> no_sep (stamp dt +:+ suffix).
Proof.
  intros Hs. unfold no_sep. rewrite list_ascii_of_string_app. apply Forall_app.
  split; [|exact Hs]. unfold stamp, pad4, pad2. cbn.
  repeat constructor; solve [apply digit_not_sep | reflexivity].
Qed.

Lemma dirname_output_path output_dir dt :
  os_path_dirname (output_path output_dir dt) = day_dir dt.
Proof.
  rewrite output_path_split.
  change (day_dir dt)
    with ((month_dir dt +:+ "/" +:+ String (digit (day dt / 10)) "")
          +:+ String (digit (day dt)) "").
  apply dirname_of_joined; [apply digit_not_sep|].
  apply stamp_no_sep. unfold no_sep. cbn. repeat constructor.
Qed.

Lemma dirname_data_path input_dir dt :
  os_path_dirname (data_path input_dir dt) = day_dir dt.
Proof.
  rewrite data_path_split.
  change (day_dir dt)
    with ((month_dir dt +:+ "/" +:+ String (digit (day dt / 10)) "")
          +:+ String (digit (day dt)) "").
  apply dirname_of_joined; [apply digit_not_sep|].
  apply stamp_no_sep. unfold no_sep. cbn. repeat constructor.
Qed.

(** X2: the directory [sel_mid_line] hands to [os.makedirs] is
    [/YYYY/MM/DD], whatever [output_dir] is, and it is the directory the
    input is read from, whatever [input_dir] is. *)
Theorem output_directory_is_the_day_of_the_input input_dir output_dir dt :
  os_path_dirname (output_path output_dir dt)
    = "/" +:+ pad4 (year dt) +:+ "/" +:+ pad2 (month dt) +:+ "/" +:+ pad2 (day dt) /\
  os_path_dirname (data_path input_dir dt) = os_path_dirname (output_path output_dir dt).
Proof.
  rewrite dirname_output_path, dirname_data_path. split; reflexivity.
Qed.

(** ** A run, once more *)

Section RunMore.
Context `{Env}.

(** X3: the calls of a run, in order and in full.  A run calls
    [torch.load] on the input path.  When that raises, or when the slice
    does, nothing else is called but the [print] of the [except] clause
    that matches.  Otherwise it calls [os.makedirs] on the directory of the
    day; when that raises the same holds; otherwise it calls [torch.save]
    with the slice on the output path, and then prints the success line or
    what the matching [except] clause prints. *)
Theorem calls_of_a_run s input_dir output_dir dt :
  (forall e,
      torch_load (fs s) (data_path input_dir dt) = inl e ->
      calls (sel_mid_line input_dir output_dir dt) s =
        TorchLoad (data_path input_dir dt) :: (Print <$> except_lines dt e)) /\
  (forall grid,
      torch_load (fs s) (data_path input_dir dt) = inr grid ->
      (forall e,
          getitem_colon_int grid 512 = inl e ->
          calls (sel_mid_line input_dir output_dir dt) s =
            TorchLoad (data_path input_dir dt) :: (Print <$> except_lines dt e)) /\
      (forall col,
          getitem_colon_int grid 512 = inr col ->
          (forall w1 e,
              os_makedirs (fs s) (day_dir dt) = (w1, inl e) ->
              calls (sel_mid_line input_dir output_dir dt) s =
                TorchLoad (data_path input_dir dt) :: OsMakedirs (day_dir dt)
                  :: (Print <$> except_lines dt e)) /\
          (forall w1 w2 e,
              os_makedirs (fs s) (day_dir dt) = (w1, inr tt) ->
              torch_save w1 col (output_path output_dir dt) = (w2, inl e) ->
              calls (sel_mid_line input_dir output_dir dt) s =
                TorchLoad (data_path input_dir dt) :: OsMakedirs (day_dir dt)
                  :: TorchSave col (output_path output_dir dt)
                  :: (Print <$> except_lines dt e)) /\
          (forall w1 w2,
              os_makedirs (fs s) (day_dir dt) = (w1, inr tt) ->
              torch_save w1 col (output_path output_dir dt) = (w2, inr tt) ->
              calls (sel_mid_line input_dir output_dir dt) s =
                [TorchLoad (data_path input_dir dt); OsMakedirs (day_dir dt);
                 TorchSave col (output_path output_dir dt);
                 Print (success_line dt)]))).
Proof.
  assert (Hlines : forall e,
             outcome_line dt (outcome_of output_dir dt (inl e)) = except_lines dt e).
  { intros e. unfold outcome_of, except_lines.
    destruct (isinstance_FileNotFoundError e); [reflexivity|].
    destruct (isinstance_Exception e); reflexivity. }
  split.
  { intros e Hload. rewrite calls_sel_mid_line. unfold attempt_calls, attempt.
    rewrite Hload. cbn [snd app]. now rewrite Hlines. }
  intros grid Hload. split.
  { intros e Hslice. rewrite calls_sel_mid_line. unfold attempt_calls, attempt.
    rewrite Hload, Hslice. cbn [snd app]. now rewrite Hlines. }
  intros col Hslice. split; [|split].
  - intros w1 e Hmk. rewrite calls_sel_mid_line. unfold attempt_calls, attempt.
    rewrite Hload, Hslice, dirname_output_path, Hmk. cbn [snd app].
    now rewrite Hlines.
  - intros w1 w2 e Hmk Hsave. rewrite calls_sel_mid_line. unfold attempt_calls, attempt.
    rewrite Hload, Hslice, dirname_output_path, Hmk, Hsave. cbn [snd app].
    now rewrite Hlines.
  - intros w1 w2 Hmk Hsave. rewrite calls_sel_mid_line. unfold attempt_calls, attempt.
    rewrite Hload, Hslice, dirname_output_path, Hmk, Hsave. reflexivity.
Qed.

(** X4: a run returns a path exactly when the load, the slice, the making
    of the directory and the save all went through; the path is then the
    output path, the file system is the one the save left, and the success
    line is the one line printed. *)
Theorem returns_a_path_iff s input_dir output_dir dt s' path :
  run (sel_mid_line input_dir output_dir dt) s = (s', inr (Some path)) <->
  path = output_path output_dir dt /\
  stdout s' = (stdout s ++ [success_line dt])%list /\
  exists grid col w1,
    torch_load (fs s) (data_path input_dir dt) = inr grid /\
    getitem_colon_int grid 512 = inr col /\
    os_makedirs (fs s) (day_dir dt) = (w1, inr tt) /\
    torch_save w1 col (output_path output_dir dt) = (fs s', inr tt).
Proof.
  split.
  - intros Hrun. apply run_success in Hrun as (-> & Hatt & Hout).
    split; [reflexivity|]. split; [exact Hout|].
    apply attempt_success in Hatt as (grid & col & w1 & Hl & Hg & Hmk & Hsv & _).
    rewrite dirname_output_path in Hmk. eauto 10.
  - intros (-> & Hout & grid & col & w1 & Hl & Hg & Hmk & Hsv).
    rewrite run_sel_mid_line. unfold attempt.
    rewrite Hl, Hg, dirname_output_path, Hmk, Hsv. cbn.
    destruct s' as [w' out']. cbn in *. now rewrite Hout.
Qed.
End RunMore.

(** ** The log of the pool *)

Section PoolLog.
Context `{Env}.
Variables (num_cpus : Z) (input_dir output_dir : string).

Local Abbreviation step := (pool_step num_cpus input_dir output_dir).



Lemma run_collect_exact d a s :
  run (collect d (inr a)) s =
  (State (fs s) (stdout s ++ if truthy a then [saved_line a] else []), inr tt).
Proof.
  unfold collect. cbn. destruct (truthy a); cbn; [reflexivity|].
  rewrite app_nil_r. now destruct s.
Qed.




Lemma date_in_batch (futs : list future) i f :
  futs !! i = Some f -> f_date f ∈ f_date <$> futs.
Proof.
  intros Hi. apply list_elem_of_fmap. exists f. split; [reflexivity|].
  eapply list_elem_of_lookup_2, Hi.
Qed.







(** One task run to its end by the worker that holds it. *)
Lemma task_steps (p : prog (option string)) :
  forall s s' a futs i d y m,
    run p s = (s', inr a) ->
    futs !! i = Some (Future d (Running p) y) ->
    rtc step (Pool s futs m) (Pool s' (<[i := Future d (Running (Return a)) y]> futs) m).
Proof.
  induction p as [a0|e|c k IH]; intros s s' a futs i d y m Hrun Hi; cbn in Hrun.
  - injection Hrun as <- <-. rewrite list_insert_id by exact Hi. apply rtc_refl.
  - discriminate Hrun.
  - destruct (exec_call c s) as [s1 r] eqn:Hexec.
    eapply rtc_l; [eapply step_call; eassumption|].
    rewrite <- (list_insert_insert_eq futs i
                  (Future d (Running (Return a)) y) (Future d (Running (k r)) y)).
    eapply (IH r); [exact Hrun|].
    apply list_lookup_insert_eq. eapply lookup_lt_Some, Hi.
Qed.


Lemma insert_middle {A : Type} (l k : list A) (x y : A) :
  <[length l := y]> (l ++ x :: k)%list = (l ++ y :: k)%list.
Proof. induction l as [|z l IH]; cbn; [reflexivity|]. now f_equal. Qed.

Lemma running_app_queued (done : list future) ds :
  Forall (fun f => is_running f = false) done ->
  running (done ++ ((fun d => Future d Queued false) <$> ds)) = 0%nat.
Proof.
  intros Hdone. apply running_none.
  rewrite <- Forall_Exists_neg. apply Forall_app. split.
  - eapply Forall_impl; [exact Hdone|]. intros f ->. discriminate.
  - apply Forall_fmap, Forall_forall. intros d _. discriminate.
Qed.

Lemma run_in_order_steps ds :
  raises_only_Exception -> 0 < num_cpus ->
  forall done s,
    Forall (fun f => is_running f = false) done ->
    rtc step
      (Pool s (done ++ ((fun d => Future d Queued false) <$> ds)) None)
      (Pool (fst (run_in_order input_dir output_dir ds s))
            (done ++ snd (run_in_order input_dir output_dir ds s)) None).
Proof.
  intros Hexc Hcpus. induction ds as [|d ds IH]; intros done s Hdone.
  { cbn. apply rtc_refl. }
  cbn [run_in_order fmap list_fmap].
  destruct (sel_mid_line_returns s input_dir output_dir d Hexc) as [a Ha].
  destruct (run (sel_mid_line input_dir output_dir d) s) as [s1 r] eqn:Hrun.
  cbn [snd] in Ha. subst r. rewrite run_collect_exact.
  set (s2 := State (fs s1) (stdout s1 ++ if truthy a then [saved_line a] else [])).
  specialize (IH (done ++ [Future d (Done (inr a)) true])%list s2).
  destruct (run_in_order input_dir output_dir ds s2) as [s3 futs] eqn:Hrest.
  cbn [fst snd] in IH |- *.
  eapply rtc_l.
  { eapply (step_start _ _ _ s _ None (length done) d false).
    - apply list_lookup_middle. reflexivity.
    - change (Z.of_nat (running (done ++
                ((fun d => Future d Queued false) <$> d :: ds))) < num_cpus).
      rewrite running_app_queued by exact Hdone. lia. }
  rewrite insert_middle.
  etrans.
  { eapply (task_steps _ s s1 a _ (length done) d false None Hrun).
    apply list_lookup_middle. reflexivity. }
  rewrite insert_middle.
  eapply rtc_l.
  { eapply (step_return _ _ _ s1 _ None (length done) d false a).
    apply list_lookup_middle. reflexivity. }
  rewrite insert_middle.
  eapply rtc_l.
  { eapply (step_collect _ _ _ s1 _ (length done) d (inr a) s2 (inr tt)).
    - apply list_lookup_middle. reflexivity.
    - apply run_collect_exact. }
  rewrite insert_middle. rewrite <- !app_assoc in IH. apply IH.
  apply Forall_app. split; [exact Hdone|]. apply Forall_singleton. reflexivity.
Qed.

Lemma run_in_order_reachable w dates :
  raises_only_Exception -> 0 < num_cpus ->
  rtc step (submit_all w dates)
      (Pool (fst (run_in_order input_dir output_dir dates (State w [])))
            (snd (run_in_order input_dir output_dir dates (State w []))) None).
Proof.
  intros Hexc Hcpus.
  apply (run_in_order_steps dates Hexc Hcpus [] (State w [])). apply Forall_nil_2.
Qed.

Lemma run_in_order_finished dates s :
  finished (Pool (fst (run_in_order input_dir output_dir dates s))
                 (snd (run_in_order input_dir output_dir dates s)) None).
Proof.
  unfold finished. cbn [p_futures p_main].
  assert (Hall : Forall (fun f => is_done f = true /\ f_yielded f = true)
                        (snd (run_in_order input_dir output_dir dates s))).
  { revert s. induction dates as [|d ds IH]; intros s; cbn [run_in_order].
    - apply Forall_nil_2.
    - destruct (run (sel_mid_line input_dir output_dir d) s) as [s1 r].
      destruct (run (collect d r) s1) as [s2 u]. specialize (IH s2).
      destruct (run_in_order input_dir output_dir ds s2) as [s3 futs].
      cbn [snd] in IH |- *. apply Forall_cons. split; [split; reflexivity|exact IH]. }
  split; [|intros _]; eapply Forall_impl; try exact Hall; intros f [? ?]; assumption.
Qed.

(** X6: the tasks taken one at a time in the order of the list, each handed
    to the loop of [main] as soon as it is over, is one of the schedules of
    the pool, and it leaves the [with] block. *)
Theorem in_order_is_a_schedule w dates :
  raises_only_Exception -> 0 < num_cpus ->
  rtc step (submit_all w dates)
      (Pool (fst (run_in_order input_dir output_dir dates (State w [])))
            (snd (run_in_order input_dir output_dir dates (State w []))) None) /\
  finished (Pool (fst (run_in_order input_dir output_dir dates (State w [])))
                 (snd (run_in_order input_dir output_dir dates (State w []))) None).
Proof.
  intros Hexc Hcpus. split.
  - now apply run_in_order_reachable.
  - apply run_in_order_finished.
Qed.


Lemma handler_quiet d e :
  quiet d
    (if isinstance_FileNotFoundError e
     then perform (Print (skip_line d));; Return None
     else if isinstance_Exception e
          then perform (Print (failure_line d e));; Return None
          else Raise e).
Proof.
  unfold is_outcome_line.
  destruct (isinstance_FileNotFoundError e);
    [|destruct (isinstance_Exception e) eqn:He; [|exact He]];
    cbn; (split; [intros line [= <-]; unfold is_outcome_line; eauto|]);
    intros s s' r [= _ <-]; exact I.
Qed.

Lemma sel_mid_line_quiet d : quiet d (sel_mid_line input_dir output_dir d).
Proof.
  unfold sel_mid_line. cbn. split; [discriminate|].
  intros s s' [e|grid] _; cbn; [apply handler_quiet|].
  destruct (getitem_colon_int grid 512) as [e|col]; cbn; [apply handler_quiet|].
  split; [discriminate|]. intros s1 s1' [e|[]] _; cbn; [apply handler_quiet|].
  split; [discriminate|]. intros s2 s2' [e|[]] _; cbn; [apply handler_quiet|].
  split; [intros line [= <-]; unfold is_outcome_line; auto|].
  intros s3 s3' r [= _ <-]. exact I.
Qed.

Lemma run_collect_escaped d e s :
  isinstance_Exception e = false -> run (collect d (inl e)) s = (s, inl e).
Proof. intros He. unfold collect. cbn. rewrite He. reflexivity. Qed.

Lemma run_collect_handled d e s :
  isinstance_Exception e = true ->
  run (collect d (inl e)) s = (State (fs s) (stdout s ++ [failed_line d e]), inr tt).
Proof. intros He. unfold collect. cbn. rewrite He. reflexivity. Qed.

Lemma failed_line_not_plain d e :
  ~ ((exists d', is_outcome_line d' (failed_line d e)) \/
     exists a, failed_line d e = saved_line a).
Proof.
  unfold is_outcome_line, failed_line, success_line, skip_line, failure_line, saved_line.
  cbn [append]. intros [(d' & [Heq|[Heq|[e' Heq]]])|[a Heq]]; discriminate Heq.
Qed.

Lemma step_quiet P P' :
  plain_log (stdout (p_state P)) /\ Forall future_quiet (p_futures P) ->
  step P P' ->
  plain_log (stdout (p_state P')) /\ Forall future_quiet (p_futures P').
Proof.
  intros [Hlog Hall] Hstep.
  destruct Hstep as [s futs m i d y Hi Hcap
                    |s futs m i d y c k s' r Hi Hexec
                    |s futs m i d y a Hi
                    |s futs m i d y e Hi
                    |s futs i d r s' res Hi Hrun];
    cbn [p_state p_futures] in *;
    pose proof (Forall_lookup_1 _ _ _ _ Hall Hi) as Hf;
    unfold future_quiet in Hf; cbn [f_status f_date] in Hf.
  - split; [exact Hlog|]. apply Forall_insert; [exact Hall|].
    unfold future_quiet. cbn [f_status f_date]. apply sel_mid_line_quiet.
  - cbn [quiet] in Hf. destruct Hf as [Hprint Hk]. split.
    + rewrite (exec_call_stdout _ _ _ _ Hexec). apply Forall_app. split; [exact Hlog|].
      destruct c as [path|path|obj path|line]; try apply Forall_nil_2.
      apply Forall_singleton. left. exists d. apply Hprint. reflexivity.
    + apply Forall_insert; [exact Hall|].
      unfold future_quiet. cbn [f_status f_date]. eapply Hk, Hexec.
  - split; [exact Hlog|]. apply Forall_insert; [exact Hall|exact I].
  - split; [exact Hlog|]. apply Forall_insert; [exact Hall|].
    unfold future_quiet. cbn [f_status f_date quiet] in *. exact Hf.
  - split; [|apply Forall_insert; [exact Hall|]; unfold future_quiet; exact Hf].
    destruct r as [e|a].
    + rewrite (run_collect_escaped d e s Hf) in Hrun. injection Hrun as <- _. exact Hlog.
    + rewrite run_collect_exact in Hrun. injection Hrun as <- _. cbn [stdout].
      apply Forall_app. split; [exact Hlog|].
      destruct (truthy a); [|apply Forall_nil_2].
      apply Forall_singleton. right. exists a. reflexivity.
Qed.

Lemma reachable_quiet w dates P :
  rtc step (submit_all w dates) P ->
  plain_log (stdout (p_state P)) /\ Forall future_quiet (p_futures P).
Proof.
  intros Hsteps.
  eapply (rtc_ind_r (fun Q => plain_log (stdout (p_state Q)) /\
                              Forall future_quiet (p_futures Q)));
    [| |exact Hsteps].
  - split; [apply Forall_nil_2|]. cbn [submit_all p_futures].
    apply Forall_fmap, Forall_forall. intros d _. exact I.
  - intros Q Q' _ Hstep IH. eapply step_quiet; eauto.
Qed.

(** X8: the handler of the loop of [main] is never entered, whatever the
    outside calls raise: an exception a task lets through is no instance of
    [Exception], so no line "Failed to process ..." is printed, under any
    schedule. *)
Theorem failed_to_process_is_never_printed w dates P d e :
  rtc step (submit_all w dates) P ->
  (failed_line d e ∉ stdout (p_state P)) /\
  forall f e', f ∈ p_futures P -> f_status f = Done (inl e') ->
               isinstance_Exception e' = false.
Proof.
  intros Hsteps. destruct (reachable_quiet w dates P Hsteps) as [Hlog Hall]. split.
  - intros Hin. unfold plain_log in Hlog. rewrite Forall_forall in Hlog.
    exact (failed_line_not_plain d e (Hlog _ Hin)).
  - intros f e' Hin Hst. rewrite Forall_forall in Hall. specialize (Hall f Hin).
    unfold future_quiet in Hall. now rewrite Hst in Hall.
Qed.



End PoolLog.

Lemma in_order_witness :
  rtc (pool_step 1 "/data" "/out") (submit_all (H := mem_env) w_valid [t0; t1]) pool_in_order /\
  finished pool_in_order.
Proof.
  apply (in_order_is_a_schedule (H := mem_env) 1 "/data" "/out" w_valid [t0; t1]).
  - apply mem_raises_only_Exception.
  - lia.
Defined.


Lemma failed_to_process_witness :
  (failed_line t0 e_corrupt ∉ stdout (p_state pool_in_order)) /\
  forall f e', f ∈ p_futures pool_in_order -> f_status f = Done (inl e') ->
               isinstance_Exception e' = false.
Proof.
  apply (failed_to_process_is_never_printed (H := mem_env) 1 "/data" "/out"
           w_valid [t0; t1] pool_in_order).
  apply (run_in_order_reachable (H := mem_env) 1 "/data" "/out" w_valid [t0; t1]).
  - apply mem_raises_only_Exception.
  - lia.
Defined.




(** ** Runs on the in-memory file system *)

Lemma mem_mkdirs_success dirs : forall (w w1 : gmap string node),
  mem_mkdirs w dirs = (w1, inr tt) ->
  (forall d, d ∈ dirs -> w1 !! d = Some Dir) /\
  (forall p, w1 !! p = w !! p \/ (w !! p = None /\ w1 !! p = Some Dir)).
Proof.
  induction dirs as [|d dirs IH]; intros w w1; cbn [mem_mkdirs].
  { intros [= <-]. split; [intros d Hd; inversion Hd|auto]. }
  destruct (w !! d) as [[|c]|] eqn:Hd; [| discriminate |]; intros Hrest;
    destruct (IH _ _ Hrest) as [Hdirs Hkeep]; split.
  - intros d' [->|Hin]%elem_of_cons; [|auto].
    destruct (Hkeep d) as [->|[Hnone _]]; congruence.
  - exact Hkeep.
  - intros d' [->|Hin]%elem_of_cons; [|auto].
    destruct (Hkeep d) as [->|[_ ->]]; [apply lookup_insert_eq|reflexivity].
  - intros p. destruct (decide (p = d)) as [->|Hne].
    + right. split; [exact Hd|].
      destruct (Hkeep d) as [->|[_ ->]]; [apply lookup_insert_eq|reflexivity].
    + destruct (Hkeep p) as [Hp|[Hp1 Hp2]];
        rewrite lookup_insert_ne in * by congruence; auto.
Qed.

Lemma mem_mkdirs_there dirs : forall w : gmap string node,
  (forall d, d ∈ dirs -> w !! d = Some Dir) -> mem_mkdirs w dirs = (w, inr tt).
Proof.
  induction dirs as [|d dirs IH]; intros w Hall; cbn [mem_mkdirs]; [reflexivity|].
  rewrite (Hall d) by (left). apply IH. intros d' Hd'. apply Hall. now right.
Qed.

Lemma mem_save_success (w : gmap string node) obj path w' :
  mem_save w obj path = (w', inr tt) ->
  w' = <[path := File (Pickle obj)]> w /\
  w !! path <> Some Dir /\
  (is_root (os_path_dirname path) = true \/ w !! os_path_dirname path = Some Dir).
Proof.
  unfold mem_save.
  destruct (w !! path) as [[|c]|] eqn:Hp; [discriminate| |];
    (destruct (is_root _); [intros [= <-]; auto|]);
    destruct (w !! os_path_dirname path) as [[|c']|]; try discriminate;
    intros [= <-]; auto.
Qed.

Lemma mem_attempt_eq (w : gmap string node) input_dir output_dir dt :
  attempt (H := mem_env) w input_dir output_dir dt =
  match mem_load w (data_path input_dir dt) with
  | inl e => (w, inl e)
  | inr grid =>
      match getitem_colon_int grid 512 with
      | inl e => (w, inl e)
      | inr col =>
          match mem_makedirs w (os_path_dirname (output_path output_dir dt)) with
          | (w1, inl e) => (w1, inl e)
          | (w1, inr _) => mem_save w1 col (output_path output_dir dt)
          end
      end
  end.
Proof. reflexivity. Qed.

Lemma mem_load_file (w : gmap string node) path grid :
  mem_load w path = inr grid <-> w !! path = Some (File (Pickle grid)).
Proof.
  unfold mem_load. destruct (w !! path) as [[|[t|]]|]; split; intros Heq;
    inversion Heq; reflexivity.
Qed.

(** A second attempt on what a successful one left goes through again and
    leaves the file system as it found it. *)
Lemma mem_attempt_again (w w' : gmap string node) input_dir output_dir dt :
  attempt (H := mem_env) w input_dir output_dir dt = (w', inr tt) ->
  attempt (H := mem_env) w' input_dir output_dir dt = (w', inr tt).
Proof.
  rewrite !mem_attempt_eq.
  destruct (mem_load w _) as [e|grid] eqn:Hload; [discriminate|].
  destruct (getitem_colon_int grid 512) as [e|col] eqn:Hslice; [discriminate|].
  destruct (mem_makedirs w _) as [w1 [e|[]]] eqn:Hmk; [discriminate|].
  intros Hsave.
  apply mem_load_file in Hload.
  apply mem_mkdirs_success in Hmk as [Hdirs Hkeep].
  apply mem_save_success in Hsave as (-> & Hnodir & Hparent).
  set (out := output_path output_dir dt) in *.
  set (inp := data_path input_dir dt) in *.
  assert (Hio : out <> inp) by apply output_path_not_data_path.
  assert (Hload' : mem_load (<[out := File (Pickle col)]> w1) inp = inr grid).
  { apply mem_load_file. rewrite lookup_insert_ne by exact Hio.
    destruct (Hkeep inp) as [->|[Hnone _]]; congruence. }
  rewrite Hload', Hslice.
  assert (Hmk' : mem_makedirs (<[out := File (Pickle col)]> w1) (os_path_dirname out)
                 = (<[out := File (Pickle col)]> w1, inr tt)).
  { apply mem_mkdirs_there. intros d Hd.
    rewrite lookup_insert_ne; [now apply Hdirs|].
    intros <-. apply Hnodir. now apply Hdirs. }
  rewrite Hmk'. unfold mem_save. rewrite lookup_insert_eq. cbv beta iota zeta.
  destruct (is_root _) eqn:Hroot.
  { now rewrite insert_insert_eq. }
  destruct Hparent as [Hparent|Hparent]; [discriminate|].
  rewrite lookup_insert_ne by congruence.
  rewrite Hparent. now rewrite insert_insert_eq.
Qed.

(** X11: on the in-memory file system a run that returned a path can be repeated
    at will: the next run returns the same path, prints the success line
    and leaves the file system exactly as the first run left it. *)
Theorem rerun_in_memory_changes_nothing
    (s s1 : @state mem_env) input_dir output_dir dt path :
  run (sel_mid_line input_dir output_dir dt) s = (s1, inr (Some path)) ->
  run (sel_mid_line input_dir output_dir dt) s1 =
    (State (fs s1) (stdout s1 ++ [success_line dt]), inr (Some path)).
Proof.
  intros Hrun. apply run_success in Hrun as (-> & Hatt & _).
  rewrite run_sel_mid_line.
  rewrite (mem_attempt_again _ _ _ _ _ Hatt). reflexivity.
Qed.

Lemma rerun_in_memory_witness :
  run (sel_mid_line "/data" "/out" t0) once =
    (State (fs once) (stdout once ++ [success_line t0]), inr (Some (output_path "/out" t0))).
Proof.
  apply (rerun_in_memory_changes_nothing (mem_state w_valid []) once "/data" "/out" t0).
  unfold once. apply run_eta. vm_compute. reflexivity.
Defined.

(** ** The timestamps, once more *)

Lemma on_the_hour dt k :
  valid_datetime dt ->
  timestamp dt = timestamp start_date + k * 3600000000 ->
  minute dt = 0 /\ second dt = 0 /\ microsecond dt = 0.
Proof.
  intros (_ & _ & Hmi & Hs & Hus).
  replace (timestamp start_date) with (17613432 * 3600000000) by (vm_compute; reflexivity).
  unfold timestamp. generalize (toordinal dt). intros o Heq. lia.
Qed.

(** X12: the timestamps of [main] are full hours, and they are submitted in
    strictly increasing order. *)
Theorem data_list_full_hours_in_order :
  exists l,
    data_list = inr l /\
    (forall dt, dt ∈ l -> minute dt = 0 /\ second dt = 0 /\ microsecond dt = 0) /\
    (forall i j dt1 dt2, l !! i = Some dt1 -> l !! j = Some dt2 ->
                         (i < j)%nat -> datetime_lt dt1 dt2 = true).
Proof.
  destruct data_list_spec as (l & Hl & _ & Hall).
  exists l. split; [exact Hl|]. split.
  - intros dt [i Hi]%list_elem_of_lookup.
    destruct (Hall i dt Hi) as (Hv & Hts & _).
    exact (on_the_hour dt (Z.of_nat i) Hv Hts).
  - intros i j dt1 dt2 Hi Hj Hlt.
    destruct (Hall i dt1 Hi) as (Hv1 & Hts1 & _).
    destruct (Hall j dt2 Hj) as (Hv2 & Hts2 & _).
    apply (datetime_lt_timestamp dt1 dt2 Hv1 Hv2). rewrite Hts1, Hts2. lia.
Qed.

(** ** The tasks of a batch do not depend on each other *)

Lemma dirname_day_dir dt : os_path_dirname (day_dir dt) = month_dir dt.
Proof.
  change (day_dir dt) with (month_dir dt +:+ "/" +:+ pad2 (day dt)).
  change (month_dir dt)
    with ((year_dir dt +:+ "/" +:+ String (digit (month dt / 10)) "")
          +:+ String (digit (month dt)) "").
  apply dirname_of_joined; [apply digit_not_sep|].
  unfold no_sep, pad2. cbn. repeat constructor; apply digit_not_sep.
Qed.

Lemma dirname_month_dir dt : os_path_dirname (month_dir dt) = year_dir dt.
Proof.
  change (month_dir dt) with (year_dir dt +:+ "/" +:+ pad2 (month dt)).
  change (year_dir dt)
    with (("/" +:+ String (digit (year dt / 1000))
                     (String (digit (year dt / 100)) (String (digit (year dt / 10)) "")))
          +:+ String (digit (year dt)) "").
  apply dirname_of_joined; [apply digit_not_sep|].
  unfold no_sep, pad2. cbn. repeat constructor; apply digit_not_sep.
Qed.

Lemma dirname_below_root n : no_sep n -> os_path_dirname ("/" +:+ n) = "/".
Proof.
  intros Hn. unfold os_path_dirname.
  change (list_ascii_of_string ("/" +:+ n)) with ("/"%char :: list_ascii_of_string n).
  cbn [rev]. rewrite drop_until_sep_app by (apply Forall_rev; exact Hn).
  reflexivity.
Qed.

Lemma dirname_year_dir dt : os_path_dirname (year_dir dt) = "/".
Proof.
  apply dirname_below_root. unfold no_sep, pad4. cbn.
  repeat constructor; apply digit_not_sep.
Qed.

Lemma ancestors_day_dir dt :
  ancestors (String.length (day_dir dt)) (day_dir dt)
  = [year_dir dt; month_dir dt; day_dir dt].
Proof.
  assert (Hlen : String.length (day_dir dt) = 11%nat) by reflexivity.
  rewrite Hlen. cbn [ancestors].
  rewrite dirname_day_dir, dirname_month_dir, dirname_year_dir.
  assert (H1 : String.eqb (day_dir dt) (month_dir dt) = false).
  { apply String.eqb_neq. intros Heq. apply (f_equal String.length) in Heq.
    discriminate Heq. }
  assert (H2 : String.eqb (month_dir dt) (year_dir dt) = false).
  { apply String.eqb_neq. intros Heq. apply (f_equal String.length) in Heq.
    discriminate Heq. }
  assert (H3 : String.eqb (year_dir dt) "/" = false).
  { apply String.eqb_neq. intros Heq. apply (f_equal String.length) in Heq.
    discriminate Heq. }
  rewrite H1, H2, H3. reflexivity.
Qed.

Lemma day_dir_not_root dt : is_root (day_dir dt) = false.
Proof.
  unfold is_root. rewrite dirname_day_dir.
  apply String.eqb_neq. intros Heq. apply (f_equal String.length) in Heq.
  discriminate Heq.
Qed.

Lemma data_path_no_dir_path input_dir dt : ~ dir_path (data_path input_dir dt).
Proof.
  intros (d & Heq). rewrite data_path_split in Heq.
  destruct Heq as [Heq|[Heq|Heq]]; apply (f_equal String.length) in Heq;
    discriminate Heq.
Qed.

Lemma output_path_no_dir_path output_dir dt : ~ dir_path (output_path output_dir dt).
Proof.
  intros (d & Heq). rewrite output_path_split in Heq.
  destruct Heq as [Heq|[Heq|Heq]]; apply (f_equal String.length) in Heq;
    discriminate Heq.
Qed.

(** What [os.makedirs] changes, whether it raises or not. *)
Lemma mem_mkdirs_frame dirs : forall (w : gmap string node) p,
  fst (mem_mkdirs w dirs) !! p = w !! p \/
  (w !! p = None /\ fst (mem_mkdirs w dirs) !! p = Some Dir /\ p ∈ dirs).
Proof.
  induction dirs as [|d dirs IH]; intros w p; cbn [mem_mkdirs]; [auto|].
  destruct (w !! d) as [[|c]|] eqn:Hd; cbn [fst]; [|auto|].
  - destruct (IH w p) as [Hp|(Hp1 & Hp2 & Hin)]; [auto|].
    right. repeat split; auto. now right.
  - destruct (IH (<[d := Dir]> w) p) as [Hp|(Hp1 & Hp2 & Hin)].
    + destruct (decide (p = d)) as [->|Hne].
      * right. rewrite Hp, lookup_insert_eq. repeat split; auto. now left.
      * left. rewrite Hp. now apply lookup_insert_ne.
    + destruct (decide (p = d)) as [->|Hne].
      * rewrite lookup_insert_eq in Hp1. discriminate.
      * rewrite lookup_insert_ne in Hp1 by congruence.
        right. repeat split; auto. now right.
Qed.

(** Directories that are there already do not change how it ends. *)
Lemma mem_mkdirs_agree dirs : forall w w0 : gmap string node,
  (forall a, a ∈ dirs -> w !! a = w0 !! a \/ (w0 !! a = None /\ w !! a = Some Dir)) ->
  snd (mem_mkdirs w dirs) = snd (mem_mkdirs w0 dirs).
Proof.
  induction dirs as [|d dirs IH]; intros w w0 Hrel; [reflexivity|].
  cbn [mem_mkdirs].
  assert (Hrest : forall a, a ∈ dirs ->
            w !! a = w0 !! a \/ (w0 !! a = None /\ w !! a = Some Dir))
    by (intros a Ha; apply Hrel; now right).
  destruct (Hrel d ltac:(left)) as [Hd|[Hd0 Hd]].
  - rewrite Hd. destruct (w0 !! d) as [[|c]|] eqn:Hd0; [now apply IH|reflexivity|].
    apply IH. intros a Ha. destruct (decide (a = d)) as [->|Hne].
    + left. now rewrite !lookup_insert_eq.
    + rewrite !lookup_insert_ne by congruence. now apply Hrest.
  - rewrite Hd, Hd0. apply IH. intros a Ha. destruct (decide (a = d)) as [->|Hne].
    + left. now rewrite lookup_insert_eq.
    + rewrite lookup_insert_ne by congruence. now apply Hrest.
Qed.

Lemma mem_save_there (w : gmap string node) col output_dir d :
  w !! day_dir d = Some Dir ->
  w !! output_path output_dir d <> Some Dir ->
  mem_save w col (output_path output_dir d) =
    (<[output_path output_dir d := File (Pickle col)]> w, inr tt).
Proof.
  intros Hday Hout. unfold mem_save.
  rewrite dirname_output_path, day_dir_not_root, Hday.
  destruct (w !! output_path output_dir d) as [[|c]|]; congruence.
Qed.

Lemma mem_save_on_dir (w : gmap string node) col path :
  w !! path = Some Dir -> exists e, mem_save w col path = (w, inl e).
Proof. intros Hp. unfold mem_save. rewrite Hp. eauto. Qed.


Lemma day_dirs_are_dir_paths d a :
  a ∈ [year_dir d; month_dir d; day_dir d] -> dir_path a.
Proof.
  intros Ha. exists d. repeat (apply elem_of_cons in Ha as [->|Ha]; auto).
  inversion Ha.
Qed.

Lemma outcome_of_failure output_dir d e :
  isinstance_Exception e = true ->
  outcome_result (outcome_of output_dir d (inl e)) = inr None.
Proof.
  intros He. unfold outcome_of. rewrite He.
  now destruct (isinstance_FileNotFoundError e).
Qed.

Section Batch.
Variables (num_cpus : Z) (input_dir output_dir : string) (dates : list datetime).
Variable w0 : gmap string node.

Local Abbreviation step := (pool_step (H := mem_env) num_cpus input_dir output_dir).
Local Abbreviation advanced' := (advanced input_dir output_dir dates w0).
Local Abbreviation evolved' := (evolved input_dir output_dir dates w0).
Local Abbreviation knows' := (knows input_dir output_dir dates w0).
Local Abbreviation settled' := (settled input_dir output_dir dates w0).
Local Abbreviation alone' := (alone input_dir output_dir w0).

Lemma advanced_refl w : advanced' w w.
Proof. intros p. now left. Qed.

Lemma evolved_advanced w w' : evolved' w -> advanced' w w' -> evolved' w'.
Proof.
  intros Hev Hadv p.
  destruct (Hadv p) as [Heq|[(Hnone & Hdir & Hp)|(Hnodir & d & col & Hd & -> & Hcol & Hf)]].
  - rewrite Heq. apply Hev.
  - destruct (Hev p) as [Heq|[(_ & Hw & _)|(_ & d & col & _ & _ & _ & Hw)]];
      try congruence.
    right. left. split; [congruence|]. split; assumption.
  - right. right. split; [|eauto 10].
    destruct (Hev (output_path output_dir d))
      as [Heq|[(_ & Hw & _)|(Hw0 & _)]]; congruence.
Qed.

Lemma knows_advanced d st w w' : knows' d st w -> advanced' w w' -> knows' d st w'.
Proof.
  intros Hk Hadv. destruct st; cbn [knows] in *; [exact I| |].
  - destruct (Hadv (day_dir d)) as [Heq|[(Hnone & _)|(Hnodir & _)]]; congruence.
  - destruct Hk as (d' & col & Hd' & Hpath & Hcol & Hf).
    destruct (Hadv (output_path output_dir d))
      as [Heq|[(Hnone & _)|(_ & d2 & col2 & Hd2 & Hpath2 & Hcol2 & Hf2)]].
    + exists d', col. rewrite Heq. auto.
    + congruence.
    + exists d2, col2. auto.
Qed.

Lemma advanced_mkdirs dirs w :
  (forall a, a ∈ dirs -> dir_path a) -> advanced' w (fst (mem_mkdirs w dirs)).
Proof.
  intros Hdirs p.
  destruct (mem_mkdirs_frame dirs w p) as [Heq|(Hnone & Hdir & Hin)]; [now left|].
  right. left. auto.
Qed.

Lemma advanced_save w d col :
  d ∈ dates -> column_of input_dir w0 d col ->
  w !! output_path output_dir d <> Some Dir ->
  advanced' w (<[output_path output_dir d := File (Pickle col)]> w).
Proof.
  intros Hd Hcol Hnodir p. destruct (decide (p = output_path output_dir d)) as [->|Hne].
  - right. right. split; [exact Hnodir|]. exists d, col.
    rewrite lookup_insert_eq. auto.
  - left. now apply lookup_insert_ne.
Qed.

(** What an evolved file system has at the paths of a task. *)
Lemma evolved_input w d :
  evolved' w -> w !! data_path input_dir d = w0 !! data_path input_dir d.
Proof.
  intros Hev.
  destruct (Hev (data_path input_dir d))
    as [Heq|[(_ & _ & Hp)|(_ & d' & col & _ & Hp & _)]].
  - exact Heq.
  - destruct (data_path_no_dir_path _ _ Hp).
  - symmetry in Hp. destruct (output_path_not_data_path _ _ _ _ Hp).
Qed.

Lemma evolved_output w d :
  evolved' w ->
  w !! output_path output_dir d = Some Dir <-> w0 !! output_path output_dir d = Some Dir.
Proof.
  intros Hev.
  destruct (Hev (output_path output_dir d))
    as [Heq|[(_ & _ & Hp)|(Hp & d' & col & _ & _ & _ & Hf)]].
  - now rewrite Heq.
  - destruct (output_path_no_dir_path _ _ Hp).
  - split; congruence.
Qed.

Lemma evolved_dirs w a :
  evolved' w -> dir_path a ->
  w !! a = w0 !! a \/ (w0 !! a = None /\ w !! a = Some Dir).
Proof.
  intros Hev Ha.
  destruct (Hev a) as [Heq|[(Hn & Hp & _)|(_ & d' & col & _ & -> & _)]]; auto.
  destruct (output_path_no_dir_path _ _ Ha).
Qed.

Lemma alone_eq d :
  alone' d =
  outcome_result (outcome_of output_dir d
                    (snd (attempt (H := mem_env) w0 input_dir output_dir d))).
Proof.
  unfold alone. rewrite run_sel_mid_line.
  cbn [fs]. now destruct (attempt _ _ _ _).
Qed.

Lemma alone_goes_through d :
  goes_through input_dir output_dir w0 d ->
  alone' d = inr (Some (output_path output_dir d)).
Proof.
  intros (col & (grid & Hload & Hslice) & Hmk & Hout).
  rewrite alone_eq, mem_attempt_eq, Hload, Hslice, dirname_output_path.
  unfold mem_makedirs. rewrite ancestors_day_dir.
  destruct (mem_mkdirs w0 _) as [w1 r] eqn:Hrun. cbn [snd] in Hmk. subst r.
  pose proof (mem_mkdirs_frame [year_dir d; month_dir d; day_dir d] w0
                (output_path output_dir d)) as Hframe.
  rewrite Hrun in Hframe. cbn [fst] in Hframe.
  apply mem_mkdirs_success in Hrun as [Hdirs _].
  rewrite mem_save_there; [reflexivity| |].
  - apply Hdirs. apply (list_elem_of_lookup_2 _ 2%nat). reflexivity.
  - destruct Hframe as [->|(_ & _ & Hin)]; [exact Hout|].
    destruct (output_path_no_dir_path _ _ (day_dirs_are_dir_paths _ _ Hin)).
Qed.

Lemma alone_fails d :
  ~ goes_through input_dir output_dir w0 d -> alone' d = inr None.
Proof.
  intros Hno. rewrite alone_eq, mem_attempt_eq.
  destruct (mem_load w0 _) as [e|grid] eqn:Hload.
  { apply outcome_of_failure. eapply mem_load_raises, Hload. }
  destruct (getitem_colon_int grid 512) as [e|col] eqn:Hslice.
  { apply outcome_of_failure. unfold isinstance_Exception.
    now rewrite (getitem_colon_int_raises _ _ _ Hslice). }
  rewrite dirname_output_path. unfold mem_makedirs. rewrite ancestors_day_dir.
  destruct (mem_mkdirs w0 _) as [w1 [e|[]]] eqn:Hrun.
  { apply outcome_of_failure. eapply mem_mkdirs_raises, Hrun. }
  destruct (mem_save w1 col _) as [w2 [e|[]]] eqn:Hsave.
  { apply outcome_of_failure. eapply mem_save_raises, Hsave. }
  exfalso. apply Hno. exists col. split; [exists grid; split; assumption|].
  split; [now rewrite Hrun|].
  intros Hdir. apply mem_save_success in Hsave as (_ & Hnodir & _). apply Hnodir.
  pose proof (mem_mkdirs_frame [year_dir d; month_dir d; day_dir d] w0
                (output_path output_dir d)) as Hframe.
  rewrite Hrun in Hframe. cbn [fst] in Hframe.
  destruct Hframe as [->|(Hnone & _)]; congruence.
Qed.

Lemma alone_returns d : exists a, alone' d = inr a.
Proof.
  apply (sel_mid_line_returns (H := mem_env)). apply mem_raises_only_Exception.
Qed.

Lemma alone_path d path : alone' d = inr (Some path) -> path = output_path output_dir d.
Proof.
  unfold alone. intros Hres. apply run_eta in Hres.
  now apply run_success in Hres as (-> & _).
Qed.

Lemma handler_settled d st res e :
  isinstance_Exception e = true -> res = inr None ->
  settled' d st res
    (if isinstance_FileNotFoundError e
     then perform (Print (skip_line d));; Return None
     else if isinstance_Exception e
          then perform (Print (failure_line d e));; Return None
          else Raise e).
Proof.
  intros -> ->. destruct (isinstance_FileNotFoundError e); cbn;
    intros s Hev Hk; (split; [apply advanced_refl|]);
    exists st; (split; [exact Hk|]); (split; [reflexivity|]);
    intros Hne; now destruct Hne.
Qed.

Lemma sel_mid_line_settled d :
  d ∈ dates ->
  settled' d Fresh (alone' d) (sel_mid_line input_dir output_dir d).
Proof.
  intros Hd. unfold sel_mid_line. cbn.
  intros s Hev _. split; [apply advanced_refl|].
  exists Fresh. split; [exact I|].
  assert (Hload : mem_load (fs s) (data_path input_dir d)
                  = mem_load w0 (data_path input_dir d)).
  { unfold mem_load. now rewrite (evolved_input (fs s) d Hev). }
  rewrite Hload. clear s Hev Hload.
  destruct (mem_load w0 _) as [e|grid] eqn:Hload; cbn.
  { apply handler_settled; [eapply mem_load_raises, Hload|].
    apply alone_fails. intros (c & (g & Hl & _) & _). congruence. }
  destruct (getitem_colon_int grid 512) as [e|col] eqn:Hslice; cbn.
  { apply handler_settled.
    - unfold isinstance_Exception. now rewrite (getitem_colon_int_raises _ _ _ Hslice).
    - apply alone_fails. intros (c & (g & Hl & Hs) & _). congruence. }
  assert (Hcol : column_of input_dir w0 d col) by (exists grid; split; assumption).
  rewrite dirname_output_path.
  intros s Hev _. unfold mem_makedirs. rewrite ancestors_day_dir.
  set (dirs := [year_dir d; month_dir d; day_dir d]).
  assert (Hagree : snd (mem_mkdirs (fs s) dirs) = snd (mem_mkdirs w0 dirs)).
  { apply mem_mkdirs_agree. intros a Ha.
    apply evolved_dirs; [exact Hev|]. now apply (day_dirs_are_dir_paths d). }
  pose proof (advanced_mkdirs dirs (fs s) (day_dirs_are_dir_paths d)) as Hadv.
  destruct (mem_mkdirs (fs s) dirs) as [w1 r] eqn:Hrun. cbn [fst snd] in *.
  split; [exact Hadv|].
  destruct r as [e|[]]; cbn.
  { exists Fresh. split; [exact I|].
    apply handler_settled; [eapply mem_mkdirs_raises, Hrun|].
    apply alone_fails. intros (c & _ & Hmk & _).
    fold dirs in Hmk. congruence. }
  exists Made. split.
  { apply mem_mkdirs_success in Hrun as [Hdirs _]. apply Hdirs.
    apply (list_elem_of_lookup_2 _ 2%nat). reflexivity. }
  clear s Hev Hadv Hrun w1.
  intros s Hev Hmade. cbn [knows] in Hmade.
  assert (Hcase : (fs s : gmap string node) !! output_path output_dir d = Some Dir \/
                  (fs s : gmap string node) !! output_path output_dir d <> Some Dir).
  { destruct ((fs s : gmap string node) !! output_path output_dir d) as [[|c]|];
      [left; reflexivity|right; discriminate|right; discriminate]. }
  destruct Hcase as [Hdir|Hnodir].
  - destruct (mem_save_on_dir (fs s) col _ Hdir) as [e He].
    rewrite He. cbn [fst snd fs].
    split; [apply advanced_refl|].
    exists Made. split; [exact Hmade|]. cbn.
    apply handler_settled; [eapply mem_save_raises, He|].
    apply alone_fails. intros (_ & _ & _ & Hout). apply Hout.
    apply (evolved_output (fs s) d Hev). exact Hdir.
  - rewrite (mem_save_there (fs s) col output_dir d Hmade Hnodir). cbn [fst snd fs].
    split; [now apply advanced_save|].
    exists Saved. split.
    { exists d, col. split; [exact Hd|]. split; [reflexivity|]. split; [exact Hcol|].
      apply lookup_insert_eq. }
    cbn. intros s' Hev' Hsaved. split; [apply advanced_refl|].
    exists Saved. split; [exact Hsaved|].
    change (inr (Some (output_path output_dir d)) = alone' d /\
            (Some (output_path output_dir d) <> None -> Saved = Saved)).
    split; [|reflexivity]. symmetry.
    apply alone_goes_through. exists col.
    split; [exact Hcol|]. split; [symmetry; exact Hagree|].
    intros Hout. apply Hnodir. apply (evolved_output (fs s) d Hev). exact Hout.
Qed.

Lemma future_settled_advanced w w' f :
  advanced' w w' ->
  future_settled input_dir output_dir dates w0 w f ->
  future_settled input_dir output_dir dates w0 w' f.
Proof.
  intros Hadv. unfold future_settled. destruct (f_status f) as [|p|r]; auto.
  - intros (st & Hk & Hp). exists st. split; [|exact Hp].
    eapply knows_advanced; eauto.
  - intros [Hr Hk]. split; [exact Hr|]. intros path Hpath.
    eapply knows_advanced; eauto.
Qed.

Lemma step_settled P P' :
  pool_settled input_dir output_dir dates w0 P -> step P P' ->
  pool_settled input_dir output_dir dates w0 P'.
Proof.
  intros (Hev & Hdates & Hall) Hstep.
  pose proof (step_dates _ _ _ _ _ Hstep) as Hdates'.
  unfold pool_settled. rewrite Hdates', Hdates.
  destruct Hstep as [s futs m i d y Hi Hcap
                    |s futs m i d y c k s' r Hi Hexec
                    |s futs m i d y a Hi
                    |s futs m i d y e Hi
                    |s futs i d r s' res Hi Hrun];
    cbn [p_state p_futures] in *;
    pose proof (Forall_lookup_1 _ _ _ _ Hall Hi) as Hf;
    unfold future_settled in Hf; cbn [f_status f_date] in Hf.
  - split; [exact Hev|]. split; [reflexivity|].
    apply Forall_insert; [exact Hall|].
    unfold future_settled. cbn [f_status f_date].
    exists Fresh. split; [exact I|]. apply sel_mid_line_settled.
    rewrite <- Hdates. apply (date_in_batch _ _ _ Hi).
  - destruct Hf as (st & Hk & Hp). cbn [settled] in Hp.
    destruct (Hp s Hev Hk) as (Hadv & st' & Hk' & Hrest).
    rewrite Hexec in Hadv, Hk', Hrest. cbn [fst snd] in *.
    split; [eapply evolved_advanced; eauto|]. split; [reflexivity|].
    apply Forall_insert.
    + eapply Forall_impl; [exact Hall|]. intros f. now apply future_settled_advanced.
    + unfold future_settled. cbn [f_status f_date]. exists st'. split; assumption.
  - destruct Hf as (st & Hk & Hp). cbn [settled] in Hp. destruct Hp as [Hres Hst].
    split; [exact Hev|]. split; [reflexivity|].
    apply Forall_insert; [exact Hall|].
    unfold future_settled. cbn [f_status f_date]. split; [exact Hres|].
    intros path [= ->]. rewrite Hst in Hk by discriminate. exact Hk.
  - destruct Hf as (st & _ & []).
  - destruct Hf as [-> Hk].
    destruct (alone_returns d) as [a Ha]. rewrite Ha in Hrun, Hk.
    rewrite run_collect_exact in Hrun. injection Hrun as <- _. cbn [fs].
    split; [exact Hev|]. split; [reflexivity|].
    apply Forall_insert; [exact Hall|].
    unfold future_settled. cbn [f_status f_date]. rewrite Ha. split; [reflexivity|exact Hk].
Qed.

Lemma reachable_settled P :
  rtc step (submit_all (H := mem_env) w0 dates) P ->
  pool_settled input_dir output_dir dates w0 P.
Proof.
  intros Hsteps.
  eapply (rtc_ind_r (fun Q => pool_settled input_dir output_dir dates w0 Q));
    [| |exact Hsteps].
  - split; [apply advanced_refl|]. cbn [submit_all p_futures]. split.
    { rewrite <- list_fmap_compose. now rewrite list_fmap_id. }
    apply Forall_fmap, Forall_forall. intros d _. exact I.
  - intros Q Q' _ Hstep IH. eapply step_settled; eauto.
Qed.

(** X13: on the in-memory file system the result of a task does not depend
    on the schedule: whatever the other tasks did before it and in between
    its calls, a finished future holds what [sel_mid_line] returns when it
    is run alone on the file system the batch started on. *)
Theorem results_do_not_depend_on_the_schedule P f r :
  rtc step (submit_all (H := mem_env) w0 dates) P ->
  f ∈ p_futures P -> f_status f = Done r ->
  r = alone' (f_date f).
Proof.
  intros Hsteps Hin Hst.
  destruct (reachable_settled P Hsteps) as (_ & _ & Hall).
  rewrite Forall_forall in Hall. specialize (Hall f Hin).
  unfold future_settled in Hall. rewrite Hst in Hall. exact (proj1 Hall).
Qed.

(** X14: under every schedule the batch leaves what was there: a path holds
    what it held at the start, unless it is a directory of a day or one of
    its two ancestors that was missing and has been made, or an output path
    of the batch that was no directory and now holds the column of its
    task; so every input reads as it did at the start. *)
Theorem batch_only_adds_directories_and_outputs P :
  rtc step (submit_all (H := mem_env) w0 dates) P ->
  evolved' (fs (p_state P)) /\
  forall d, mem_load (fs (p_state P)) (data_path input_dir d)
            = mem_load w0 (data_path input_dir d).
Proof.
  intros Hsteps. destruct (reachable_settled P Hsteps) as (Hev & _).
  split; [exact Hev|]. intros d. unfold mem_load.
  now rewrite (evolved_input _ d Hev).
Qed.

Lemma saved_column_kept P f path :
  (forall d1 d2, d1 ∈ dates -> d2 ∈ dates ->
                 output_path output_dir d1 = output_path output_dir d2 -> d1 = d2) ->
  rtc step (submit_all (H := mem_env) w0 dates) P ->
  f ∈ p_futures P -> f_status f = Done (inr (Some path)) ->
  path = output_path output_dir (f_date f) /\
  exists grid col,
    mem_load w0 (data_path input_dir (f_date f)) = inr grid /\
    getitem_colon_int grid 512 = inr col /\
    mem_load (fs (p_state P)) path = inr col.
Proof.
  intros Hinj Hsteps Hin Hst.
  destruct (reachable_settled P Hsteps) as (_ & Hdates & Hall).
  assert (Hd : f_date f ∈ dates).
  { rewrite <- Hdates. apply list_elem_of_fmap. eauto. }
  rewrite Forall_forall in Hall. specialize (Hall f Hin).
  unfold future_settled in Hall. rewrite Hst in Hall. destruct Hall as [Hres Hk].
  symmetry in Hres. apply alone_path in Hres. subst path.
  split; [reflexivity|].
  destruct (Hk _ eq_refl) as (d' & col & Hd' & Hpath & (grid & Hload & Hslice) & Hfile).
  apply (Hinj d' (f_date f) Hd' Hd) in Hpath. subst d'.
  exists grid, col. split; [exact Hload|]. split; [exact Hslice|].
  apply mem_load_file. exact Hfile.
Qed.


(** X15: when the output paths of the batch tell its timestamps apart, the
    tasks do not overwrite each other: under every schedule, once a future
    holds a path, the path is the output path of its timestamp and the file
    there holds column 512 of the input of that timestamp as the batch
    found it, whatever has run since. *)
Theorem saved_columns_are_not_overwritten P f path :
  (forall d1 d2, d1 ∈ dates -> d2 ∈ dates ->
                 output_path output_dir d1 = output_path output_dir d2 -> d1 = d2) ->
  rtc step (submit_all (H := mem_env) w0 dates) P ->
  f ∈ p_futures P -> f_status f = Done (inr (Some path)) ->
  path = output_path output_dir (f_date f) /\
  exists grid col,
    mem_load w0 (data_path input_dir (f_date f)) = inr grid /\
    getitem_colon_int grid 512 = inr col /\
    mem_load (fs (p_state P)) path = inr col.
Proof. apply saved_column_kept. Qed.

End Batch.

Lemma in_order_reachable_witness :
  rtc (pool_step 1 "/data" "/out") (submit_all (H := mem_env) w_valid [t0; t1]) pool_in_order.
Proof.
  apply (run_in_order_reachable (H := mem_env) 1 "/data" "/out" w_valid [t0; t1]).
  - apply mem_raises_only_Exception.
  - lia.
Qed.

Lemma independence_witness :
  (inr (Some (output_path "/out" t0)) : exception + option string)
  = alone "/data" "/out" w_valid (f_date f_first).
Proof.
  apply (results_do_not_depend_on_the_schedule 1 "/data" "/out" [t0; t1] w_valid
           pool_in_order f_first).
  - exact in_order_reachable_witness.
  - apply list_elem_of_lookup. exists 0%nat. vm_compute. reflexivity.
  - reflexivity.
Defined.

Lemma batch_frame_witness :
  evolved "/data" "/out" [t0; t1] w_valid (fs (p_state pool_in_order)) /\
  forall d, mem_load (fs (p_state pool_in_order)) (data_path "/data" d)
            = mem_load w_valid (data_path "/data" d).
Proof.
  apply (batch_only_adds_directories_and_outputs 1 "/data" "/out" [t0; t1] w_valid
           pool_in_order).
  exact in_order_reachable_witness.
Defined.

Lemma saved_columns_witness :
  output_path "/out" t0 = output_path "/out" (f_date f_first) /\
  exists grid col,
    mem_load w_valid (data_path "/data" (f_date f_first)) = inr grid /\
    getitem_colon_int grid 512 = inr col /\
    mem_load (fs (p_state pool_in_order)) (output_path "/out" t0) = inr col.
Proof.
  apply (saved_columns_are_not_overwritten 1 "/data" "/out" [t0; t1] w_valid
           pool_in_order f_first (output_path "/out" t0)).
  - intros d1 d2 H1 H2 Heq.
    apply elem_of_cons in H1 as [->|H1]; [|apply list_elem_of_singleton in H1 as ->];
      (apply elem_of_cons in H2 as [->|H2]; [|apply list_elem_of_singleton in H2 as ->]);
      try reflexivity; vm_compute in Heq; discriminate Heq.
  - exact in_order_reachable_witness.
  - apply list_elem_of_lookup. exists 0%nat. vm_compute. reflexivity.
  - reflexivity.
Defined.

Lemma data_list_paths_inj :
  exists l,
    data_list = inr l /\
    forall output_dir d1 d2, d1 ∈ l -> d2 ∈ l ->
      output_path output_dir d1 = output_path output_dir d2 -> d1 = d2.
Proof.
  destruct data_list_spec as (l & Hl & _ & Hall).
  exists l. split; [exact Hl|].
  intros output_dir d1 d2 [i Hi]%list_elem_of_lookup [j Hj]%list_elem_of_lookup Hpath.
  destruct (Hall i d1 Hi) as (Hv1 & Hts1 & _).
  destruct (Hall j d2 Hj) as (Hv2 & Hts2 & _).
  apply (output_path_inj output_dir d1 d2 Hv1 Hv2 Hpath).
  rewrite (microsecond_timestamp d1 Hv1), (microsecond_timestamp d2 Hv2), Hts1, Hts2.
  now rewrite !on_the_second.
Qed.

Lemma main_submit_inr (a : args) (w0 : gmap string node) P0 :
  main_submit (H := mem_env) a w0 = inr P0 ->
  exists l, data_list = inr l /\ P0 = submit_all (H := mem_env) w0 l.
Proof.
  unfold main_submit. generalize data_list. intros [e|l]; [discriminate|].
  cbn. destruct (num_cpus a <=? 0); [discriminate|].
  intros [= <-]. exists l. split; reflexivity.
Qed.

Lemma data_list_eq : data_list = inr (start_date :: later_dates).
Proof.
  destruct data_list_spec as (l & Hl & Hlen & Hall).
  destruct l as [|d rest]; [discriminate Hlen|].
  destruct (Hall 0%nat d eq_refl) as (Hv & Hts & _).
  assert (Hd : d = start_date).
  { apply (timestamp_inj d start_date Hv start_date_valid). rewrite Hts. cbn. lia. }
  subst d. unfold later_dates. revert Hl. generalize data_list.
  intros r ->. reflexivity.
Qed.

Lemma first_task_steps `{Env} num_cpus input_dir output_dir w d ds s1 a :
  0 < num_cpus ->
  run (sel_mid_line input_dir output_dir d) (State w []) = (s1, inr a) ->
  rtc (pool_step num_cpus input_dir output_dir)
      (submit_all w (d :: ds))
      (Pool s1 (Future d (Done (inr a)) false :: ((fun d => Future d Queued false) <$> ds))
            None).
Proof.
  intros Hcpus Hrun. unfold submit_all. cbn [fmap list_fmap].
  set (rest := (fun d => Future d Queued false) <$> ds).
  eapply rtc_l.
  { eapply (step_start _ _ _ _ _ None 0%nat d false); [reflexivity|].
    change (Z.of_nat (running ([] ++ ((fun d => Future d Queued false) <$> d :: ds)))
            < num_cpus).
    rewrite running_app_queued by apply Forall_nil_2. lia. }
  change (rtc (pool_step num_cpus input_dir output_dir)
            (Pool (State w [])
                  (Future d (Running (sel_mid_line input_dir output_dir d)) false :: rest)
                  None)
            (Pool s1 (Future d (Done (inr a)) false :: rest) None)).
  etrans.
  { eapply (task_steps _ _ _ _ _ _ a _ 0%nat d false None Hrun). reflexivity. }
  change (rtc (pool_step num_cpus input_dir output_dir)
            (Pool s1 (Future d (Running (Return a)) false :: rest) None)
            (Pool s1 (Future d (Done (inr a)) false :: rest) None)).
  eapply rtc_l; [|apply rtc_refl].
  exact (step_return num_cpus input_dir output_dir s1
           (Future d (Running (Return a)) false :: rest) None 0%nat d false a eq_refl).
Qed.

(** X16: the batch of [main]: once the executor is built and the
    122736 tasks are submitted, under every schedule a future that holds a
    path holds the output path of its timestamp, and the file there holds
    column 512 of the input of that timestamp as [main] found it; no other
    task of the batch has overwritten it. *)
Theorem main_saves_the_column_of_each_input
    (a : args) (w0 : gmap string node) (P0 P : @pool mem_env) f path :
  main_submit (H := mem_env) a w0 = inr P0 ->
  rtc (pool_step (H := mem_env) (num_cpus a) (input_dir a) (output_dir a)) P0 P ->
  f ∈ p_futures P -> f_status f = Done (inr (Some path)) ->
  path = output_path (output_dir a) (f_date f) /\
  exists grid col,
    mem_load w0 (data_path (input_dir a) (f_date f)) = inr grid /\
    getitem_colon_int grid 512 = inr col /\
    mem_load (fs (p_state P)) path = inr col.
Proof.
  intros Hmain Hsteps Hin Hst.
  apply main_submit_inr in Hmain as (l & Hl & ->).
  destruct data_list_paths_inj as (l' & Hl' & Hinj).
  assert (Heq : l' = l) by congruence. subst l'.
  apply (saved_column_kept (num_cpus a) (input_dir a) (output_dir a) l w0 P f path
           (Hinj (output_dir a)) Hsteps Hin Hst).
Qed.

Lemma main_saves_witness :
  output_path "/out" start_date = output_path (output_dir args_one) (f_date f_done) /\
  exists grid col,
    mem_load w_first (data_path (input_dir args_one) (f_date f_done)) = inr grid /\
    getitem_colon_int grid 512 = inr col /\
    mem_load (fs (p_state pool_first)) (output_path "/out" start_date) = inr col.
Proof.
  apply (main_saves_the_column_of_each_input args_one w_first
           (submit_all (H := mem_env) w_first (start_date :: later_dates))
           pool_first f_done (output_path "/out" start_date)).
  - unfold main_submit. rewrite data_list_eq. reflexivity.
  - apply (first_task_steps (H := mem_env) 1 "/data" "/out" w_first start_date
             later_dates s_first (Some (output_path "/out" start_date))).
    + lia.
    + apply run_eta. vm_compute. reflexivity.
  - left.
  - reflexivity.
Defined.
